(** * Hybrid-VAEP: a shallow embedding of [socceraction/hybrid_vaep/base.py]

    The class [HybridVAEP] is embedded as a record together with a small
    state-and-exception monad.  Python dictionaries are association lists
    that keep insertion order, pandas frames are column-oriented records,
    and everything that lives outside [base.py] (the feature and label
    modules, the value formula, the boosting libraries, sklearn's metrics)
    is gathered in one record of collaborators.  The position at which
    [fit] cuts the permutation of the rows is computed in binary64
    floating-point arithmetic, as Python computes it. *)

From Stdlib Require Import List String ZArith QArith Lia Bool Permutation.
From Stdlib Require Import SpecFloat.
Import ListNotations.
Open Scope string_scope.

(** ** Python dictionaries *)

Module PyDict.

Definition dict (V : Type) := list (string * V).

Fixpoint get {V} (d : dict V) (k : string) : option V :=
  match d with
  | [] => None
  | (k', v) :: d' => if String.eqb k k' then Some v else get d' k
  end.

(** [d[k] = v]: an existing key keeps its place, a new key goes last. *)
Fixpoint set {V} (d : dict V) (k : string) (v : V) : dict V :=
  match d with
  | [] => [(k, v)]
  | (k', v') :: d' =>
      if String.eqb k k' then (k', v) :: d' else (k', v') :: set d' k v
  end.

Definition keys {V} (d : dict V) : list string := map fst d.

(** [{**a, **b}] *)
Definition merge {V} (a b : dict V) : dict V :=
  fold_left (fun acc kv => set acc (fst kv) (snd kv)) b a.

(** Truth value of a dictionary: [not d] holds for the empty one only. *)
Definition is_empty {V} (d : dict V) : bool :=
  match d with [] => true | _ => false end.

End PyDict.
Import PyDict.

(** ** Exceptions *)

Inductive exn : Type :=
| NotFittedError
| ValueError (msg : string)
| KeyError (key : string)
| IndexError
| ImportError (msg : string)
| ExternalError (msg : string).

(** The name of the Python class of an exception, as [type(e).__name__]
    gives it.  Of an error raised inside a collaborator only the base class
    is known. *)
Definition exception_class (e : exn) : string :=
  match e with
  | NotFittedError => "NotFittedError"
  | ValueError _ => "ValueError"
  | KeyError _ => "KeyError"
  | IndexError => "IndexError"
  | ImportError _ => "ImportError"
  | ExternalError _ => "Exception"
  end.

Definition result (A : Type) : Type := (exn + A)%type.

(** ** Lists of names used as sets, Python slices *)

Definition mem (c : string) (l : list string) : bool := existsb (String.eqb c) l.

Definition issubset (a b : list string) : bool := forallb (fun c => mem c b) a.

(** [set(a).difference(b)]: no element is repeated.  The iteration order
    of a Python set is not specified; the elements come in an order taken
    from [a] here, and no property below depends on it. *)
Fixpoint difference (a b : list string) : list string :=
  match a with
  | [] => []
  | c :: a' =>
      let r := difference a' b in
      if mem c b || mem c r then r else c :: r
  end.

(** [sep.join(l)] *)
Definition join (sep : string) (l : list string) : string := String.concat sep l.

(** Position at which a slice bound [k] cuts a sequence of length [n]. *)
Definition slice_bound (n : nat) (k : Z) : nat :=
  if (k <? 0)%Z then Z.to_nat (Z.max 0 (Z.of_nat n + k))
  else Nat.min n (Z.to_nat k).

(** [l[:k]] and [l[k:]] *)
Definition slice_to {A} (l : list A) (k : Z) : list A :=
  firstn (slice_bound (List.length l) k) l.

Definition slice_from {A} (l : list A) (k : Z) : list A :=
  skipn (slice_bound (List.length l) k) l.

(** ** Python floats

    A Python [float] is an IEEE 754 binary64 number.  The arithmetic is that
    of the Standard Library's [SpecFloat] at precision 53 and maximal
    exponent 1024, rounding to nearest, ties to even. *)

Definition float : Type := spec_float.

Definition fmul : float -> float -> float := SFmul 53 1024.

Definition fsub : float -> float -> float := SFsub 53 1024.

(** [float(z)] for an [int]: the nearest double. *)
Definition float_of_int (z : Z) : float := binary_normalize 53 1024 z 0 false.

(** The double whose value is the rational [q], or the nearest double when
    [q] is not the value of one (as for a decimal literal such as [0.3]). *)
Definition float_of_Q (q : Q) : float :=
  match Qnum q with
  | Z0 => S754_zero false
  | Zpos n =>
      let '(m, e, l) := SFdiv_core_binary 53 1024 (Zpos n) 0 (Zpos (Qden q)) 0 in
      binary_round_aux 53 1024 false m e l
  | Zneg n =>
      let '(m, e, l) := SFdiv_core_binary 53 1024 (Zpos n) 0 (Zpos (Qden q)) 0 in
      binary_round_aux 53 1024 true m e l
  end.

(** [math.floor(x)].  Python raises [OverflowError] for an infinity and
    [ValueError] for a NaN; [fit] meets these only with a number of rows
    that no double can hold or with a [val_size] that is not finite, and the
    answer is 0 here. *)
Definition math_floor (x : float) : Z :=
  match x with
  | S754_finite s m e =>
      let z := if s then Zneg m else Zpos m in
      match e with
      | Zneg p => Z.div z (Z.pow_pos 2 p)
      | _ => (z * 2 ^ e)%Z
      end
  | _ => 0%Z
  end.

(** [1.0] *)
Definition float_one : float := S754_finite false 4503599627370496 (-52).

(** ** pandas frames *)

Record Series (V : Type) : Type := mkSeries {
  name : string;
  category : bool;            (* dtype.name == 'category' *)
  values : list V
}.
Arguments mkSeries {V}.
Arguments name {V}.
Arguments category {V}.
Arguments values {V}.

Record DataFrame (V : Type) : Type := mkFrame {
  index_len : nat;            (* len(df) *)
  series : list (Series V)
}.
Arguments mkFrame {V}.
Arguments index_len {V}.
Arguments series {V}.

Section Frames.
Context {V : Type}.

Definition columns (X : DataFrame V) : list string := map name (series X).

Definition empty_frame : DataFrame V := mkFrame 0 [].

Fixpoint take (idx : list nat) (l : list V) : list V :=
  match idx with
  | [] => []
  | i :: idx' =>
      match nth_error l i with
      | Some v => v :: take idx' l
      | None => take idx' l
      end
  end.

(** [X.iloc[idx]] for a list of positions *)
Definition iloc (X : DataFrame V) (idx : list nat) : result (DataFrame V) :=
  if forallb (fun i => i <? index_len X)%nat idx
  then inr (mkFrame (List.length idx)
              (map (fun s => mkSeries (name s) (category s) (take idx (values s)))
                   (series X)))
  else inl IndexError.

Fixpoint first_missing (cols have : list string) : option string :=
  match cols with
  | [] => None
  | c :: cols' => if mem c have then first_missing cols' have else Some c
  end.

(** [X[cols]] for a list of labels *)
Definition select (X : DataFrame V) (cols : list string) : result (DataFrame V) :=
  match first_missing cols (columns X) with
  | Some c => inl (KeyError c)
  | None =>
      inr (mkFrame (index_len X)
             (flat_map (fun c => filter (fun s => String.eqb (name s) c) (series X))
                       cols))
  end.

(** [X[c]] for one label *)
Definition getcol (X : DataFrame V) (c : string) : result (Series V) :=
  match find (fun s => String.eqb (name s) c) (series X) with
  | Some s => inr s
  | None => inl (KeyError c)
  end.

Fixpoint replace_series (l : list (Series V)) (s : Series V) : list (Series V) :=
  match l with
  | [] => [s]
  | s' :: l' =>
      if String.eqb (name s) (name s') then s :: l' else s' :: replace_series l' s
  end.

(** [X[c] = vals] for a list of values *)
Definition setcol (X : DataFrame V) (c : string) (vals : list V)
  : result (DataFrame V) :=
  match series X with
  | [] => inr (mkFrame (List.length vals) [mkSeries c false vals])
  | _ =>
      if (List.length vals =? index_len X)%nat
      then inr (mkFrame (index_len X)
                  (replace_series (series X) (mkSeries c false vals)))
      else inl (ValueError "Length of values does not match length of index")
  end.

(** [pd.concat(frames, axis=1)] *)
Definition concat_columns (frames : list (DataFrame V)) : result (DataFrame V) :=
  match frames with
  | [] => inl (ValueError "No objects to concatenate")
  | _ =>
      inr (mkFrame (fold_right (fun f n => Nat.max (index_len f) n) 0%nat frames)
             (flat_map series frames))
  end.

(** [np.nonzero(flags)[0].tolist()] *)
Fixpoint nonzero_from (i : nat) (flags : list bool) : list nat :=
  match flags with
  | [] => []
  | b :: flags' =>
      if b then i :: nonzero_from (S i) flags' else nonzero_from (S i) flags'
  end.

Definition nonzero (flags : list bool) : list nat := nonzero_from 0 flags.

End Frames.

(** ** Keyword arguments handed to the boosting libraries *)

Inductive pyval (V : Type) : Type :=
| PInt (z : Z)
| PStr (s : string)
| PBool (b : bool)
| PIntList (l : list nat)
| PEvalSet (es : list (DataFrame V * Series V)).
Arguments PInt {V}.
Arguments PStr {V}.
Arguments PBool {V}.
Arguments PIntList {V}.
Arguments PEvalSet {V}.

Inductive Learner : Type := XGBoost | CatBoost | LightGBM.

(** ** Collaborators of [base.py]

    None of these is defined in [base.py]; their internals are outside the
    scope of this development and they are taken as parameters. *)

Record Externals : Type := mkExternals {
  value : Type;                        (* a cell of a frame: a float *)
  Model : Type;                        (* a fitted classifier *)
  Actions : Type;
  Game : Type;
  GameStates : Type;
  FeatureTransfomer : Type;
  LabelFunction : Type;
  (* socceraction.spadl *)
  add_names : Actions -> Actions;
  home_team_id : Game -> Z;
  (* .features *)
  fs_actiontype_onehot : FeatureTransfomer;
  fs_bodypart_onehot : FeatureTransfomer;
  fs_time : FeatureTransfomer;
  fs_startlocation : FeatureTransfomer;
  fs_endlocation : FeatureTransfomer;
  fs_startpolar : FeatureTransfomer;
  fs_endpolar : FeatureTransfomer;
  fs_movement : FeatureTransfomer;
  fs_team : FeatureTransfomer;
  fs_time_delta : FeatureTransfomer;
  fs_space_delta : FeatureTransfomer;
  fs_goalscore : FeatureTransfomer;
  fs_result_onehot : FeatureTransfomer;
  fs_actiontype_result_onehot : FeatureTransfomer;
  fs_gamestates : Actions -> Z -> GameStates;
  fs_play_left_to_right : GameStates -> Z -> GameStates;
  transform : FeatureTransfomer -> GameStates -> DataFrame value;
  transform_columns : FeatureTransfomer -> Z -> list string;
  (* .labels *)
  lab_scores : LabelFunction;
  lab_concedes : LabelFunction;
  label : LabelFunction -> Actions -> DataFrame value;
  (* .formula *)
  formula_value :
    Actions -> Series value -> Series value -> Series value -> Series value ->
    DataFrame value;
  (* xgboost, catboost, lightgbm *)
  xgboost_installed : bool;
  catboost_installed : bool;
  lightgbm_installed : bool;
  classifier_fit :
    Learner -> dict (pyval value) -> DataFrame value -> Series value ->
    dict (pyval value) -> result Model;
  predict_proba : Model -> DataFrame value -> result (list (value * value));
  (* sklearn.metrics *)
  brier_score_loss : Series value -> Series value -> result value;
  roc_auc_score : Series value -> Series value -> result value
}.

(** ** The class [HybridVAEP] *)

Section Model.
Context (E : Externals).

Abbreviation Frame := (DataFrame (value E)).
Abbreviation Column := (Series (value E)).
Abbreviation Params := (dict (pyval (value E))).
Abbreviation Transformers := (list (FeatureTransfomer E)).

Record HybridVAEP : Type := mkHybridVAEP {
  __models : dict (dict (Model E));
  xfns_result : Transformers;
  xfns_standard : Transformers;
  xfns_resultfree : Transformers;
  yfns : list (LabelFunction E);
  nb_prev_actions : Z
}.

(** Calls that leave [base.py] for a boosting library, in program order. *)
Inductive Event : Type :=
| FitCall (l : Learner) (tree_params : Params) (X : Frame) (y : Column)
          (fit_params : Params)
| PredictCall (m : Model E) (X : Frame).

Record World : Type := mkWorld {
  self : HybridVAEP;
  trace : list Event
}.

(** *** State and exceptions *)

Definition M (A : Type) : Type := World -> World * result A.

Definition ret {A} (a : A) : M A := fun w => (w, inr a).

Definition raise {A} (e : exn) : M A := fun w => (w, inl e).

Definition bind {A B} (m : M A) (k : A -> M B) : M B :=
  fun w =>
    match m w with
    | (w', inr a) => k a w'
    | (w', inl e) => (w', inl e)
    end.

Notation "x <- m ;; k" := (bind m (fun x => k))
  (at level 61, m at next level, right associativity).

Definition lift {A} (r : result A) : M A :=
  match r with inr a => ret a | inl e => raise e end.

Definition get_self : M HybridVAEP := fun w => (w, inr (self w)).

Definition set_models (d : dict (dict (Model E))) : M unit :=
  fun w =>
    let s := self w in
    (mkWorld (mkHybridVAEP d (xfns_result s) (xfns_standard s) (xfns_resultfree s)
                (yfns s) (nb_prev_actions s))
             (trace w),
     inr tt).

Definition emit (ev : Event) : M unit :=
  fun w => (mkWorld (self w) (trace w ++ [ev]), inr tt).

(** [d[k]] *)
Definition getitem {A} (d : dict A) (k : string) : M A :=
  match get d k with Some a => ret a | None => raise (KeyError k) end.

Fixpoint for_each {A} (l : list A) (body : A -> M unit) : M unit :=
  match l with
  | [] => ret tt
  | a :: l' => _ <- body a ;; for_each l' body
  end.

Fixpoint fold_each {A S} (l : list A) (s : S) (body : S -> A -> M S) : M S :=
  match l with
  | [] => ret s
  | a :: l' => s' <- body s a ;; fold_each l' s' body
  end.

(** *** Module-level defaults *)

Definition xfns_default : Transformers :=
  [ fs_actiontype_onehot E; fs_bodypart_onehot E; fs_time E;
    fs_startlocation E; fs_endlocation E; fs_startpolar E; fs_endpolar E;
    fs_movement E; fs_team E; fs_time_delta E; fs_space_delta E;
    fs_goalscore E ].

Definition xfns_result_default : Transformers :=
  [ fs_result_onehot E; fs_actiontype_result_onehot E ].

(** Modelled from the spec: [features.feature_column_names] is not part of
    [base.py].  A feature vector is produced "by applying an ordered list
    of feature functions and concatenating their column outputs", the
    column names depending on the function and the window size. *)
Definition feature_column_names (fns : Transformers) (nb : Z) : list string :=
  flat_map (fun fn => transform_columns E fn nb) fns.

(** *** [__init__] *)

Definition __init__ (xfns xfns_result : option Transformers) (nb_prev_actions : Z)
  : HybridVAEP :=
  let xfns_result :=
    match xfns_result with None => xfns_result_default | Some r => r end in
  mkHybridVAEP
    [("scores", []); ("concedes", [])]
    xfns_result
    (match xfns with
     | None => xfns_default ++ xfns_result
     | Some x => x ++ xfns_result
     end)
    (match xfns with None => xfns_default | Some x => x end)
    [lab_scores E; lab_concedes E]
    nb_prev_actions.

(** *** [compute_features], [compute_labels] *)

Definition compute_features (game : Game E) (game_actions : Actions E) : M Frame :=
  me <- get_self ;;
  let game_actions_with_names := add_names E game_actions in
  let gamestates :=
    fs_gamestates E game_actions_with_names (nb_prev_actions me) in
  let gamestates := fs_play_left_to_right E gamestates (home_team_id E game) in
  lift (concat_columns
          (map (fun fn => transform E fn gamestates) (xfns_standard me))).

Definition compute_labels (game : Game E) (game_actions : Actions E) : M Frame :=
  me <- get_self ;;
  let game_actions_with_names := add_names E game_actions in
  lift (concat_columns
          (map (fun fn => label E fn game_actions_with_names) (yfns me))).

(** *** The three backends *)

Definition val_params (eval_set : list (Frame * Column)) : Params :=
  [("early_stopping_rounds", PInt 10); ("eval_set", PEvalSet eval_set)].

Definition _fit_xgboost (X : Frame) (y : Column)
    (eval_set : option (list (Frame * Column)))
    (tree_params fit_params : option Params) : M (Model E) :=
  if negb (xgboost_installed E) then raise (ImportError "xgboost is not installed.")
  else
    let tree_params :=
      match tree_params with
      | None => [("n_estimators", PInt 100); ("max_depth", PInt 3)]
      | Some p => p
      end in
    let fit_params :=
      match fit_params with
      | None => [("eval_metric", PStr "auc"); ("verbose", PBool true)]
      | Some p => p
      end in
    let fit_params :=
      match eval_set with
      | Some es => merge fit_params (val_params es)
      | None => fit_params
      end in
    _ <- emit (FitCall XGBoost tree_params X y fit_params) ;;
    lift (classifier_fit E XGBoost tree_params X y fit_params).

Definition _fit_catboost (X : Frame) (y : Column)
    (eval_set : option (list (Frame * Column)))
    (tree_params fit_params : option Params) : M (Model E) :=
  if negb (catboost_installed E) then raise (ImportError "catboost is not installed.")
  else
    let tree_params :=
      match tree_params with
      | None => [("eval_metric", PStr "BrierScore");
                 ("loss_function", PStr "Logloss");
                 ("iterations", PInt 100)]
      | Some p => p
      end in
    let fit_params :=
      match fit_params with
      | None =>
          let is_cat_feature := map category (series X) in
          [("cat_features", PIntList (nonzero is_cat_feature));
           ("verbose", PBool true)]
      | Some p => p
      end in
    let fit_params :=
      match eval_set with
      | Some es => merge fit_params (val_params es)
      | None => fit_params
      end in
    _ <- emit (FitCall CatBoost tree_params X y fit_params) ;;
    lift (classifier_fit E CatBoost tree_params X y fit_params).

Definition _fit_lightgbm (X : Frame) (y : Column)
    (eval_set : option (list (Frame * Column)))
    (tree_params fit_params : option Params) : M (Model E) :=
  if negb (lightgbm_installed E) then raise (ImportError "lightgbm is not installed.")
  else
    let tree_params :=
      match tree_params with
      | None => [("n_estimators", PInt 100); ("max_depth", PInt 3)]
      | Some p => p
      end in
    let fit_params :=
      match fit_params with
      | None => [("eval_metric", PStr "auc"); ("verbose", PBool true)]
      | Some p => p
      end in
    let fit_params :=
      match eval_set with
      | Some es => merge fit_params (val_params es)
      | None => fit_params
      end in
    _ <- emit (FitCall LightGBM tree_params X y fit_params) ;;
    lift (classifier_fit E LightGBM tree_params X y fit_params).

(** *** [fit] *)

Definition versions : list string := ["standard"; "resultfree"].

Definition missing_message (cols_standard : list string) (X : Frame) : string :=
  join " and " (difference cols_standard (columns X))
  ++ " are not available in the features dataframe".

Definition unsupported_message (learner : string) : string :=
  "A " ++ learner ++ " learner is not supported".

(** [self.__models[col][model_version] = m] *)
Definition store_model (col model_version : string) (m : Model E) : M unit :=
  me <- get_self ;;
  inner <- getitem (__models me) col ;;
  set_models (set (__models me) col (set inner model_version m)).

(** The number of leading positions of the permutation used for training:
    [math.floor(nb_states * (1 - val_size))].  [val_size] is the value of the
    float the caller passes and [float_of_Q val_size] that float (for a
    decimal such as [0.3], which no float equals, the float Python reads);
    the number of rows is converted to a float, and the difference and the
    product are those of binary64 floats. *)
Definition train_count (nb_states : nat) (val_size : Q) : Z :=
  math_floor (fmul (float_of_int (Z.of_nat nb_states))
                   (fsub (float_of_int 1) (float_of_Q val_size))).

Definition train_idx (idx : list nat) (nb_states : nat) (val_size : Q) : list nat :=
  slice_to idx (train_count nb_states val_size).

Definition val_idx (idx : list nat) (nb_states : nat) (val_size : Q) : list nat :=
  slice_from idx (train_count nb_states val_size + 1).

(** Body of the double loop of [fit]. *)
Definition fit_body
    (X_train_standard X_train_resultfree X_val_standard X_val_resultfree : Frame)
    (y_train y_val : Frame) (learner : string) (val_size : Q)
    (tree_params fit_params : option Params)
    (col model_version : string) : M unit :=
  let X_val :=
    if String.eqb model_version "standard" then X_val_standard
    else X_val_resultfree in
  let X_train :=
    if String.eqb model_version "standard" then X_train_standard
    else X_train_resultfree in
  eval_set <-
    (if negb (Qle_bool val_size 0)
     then (y_val_col <- lift (getcol y_val col) ;; ret (Some [(X_val, y_val_col)]))
     else ret None) ;;
  if String.eqb learner "xgboost" then
    y_train_col <- lift (getcol y_train col) ;;
    m <- _fit_xgboost X_train y_train_col eval_set tree_params fit_params ;;
    store_model col model_version m
  else if String.eqb learner "catboost" then
    y_train_col <- lift (getcol y_train col) ;;
    m <- _fit_catboost X_train y_train_col eval_set tree_params fit_params ;;
    store_model col model_version m
  else if String.eqb learner "lightgbm" then
    y_train_col <- lift (getcol y_train col) ;;
    m <- _fit_lightgbm X_train y_train_col eval_set tree_params fit_params ;;
    store_model col model_version m
  else raise (ValueError (unsupported_message learner)).

(** [idx] is the value drawn by [np.random.permutation(nb_states)]. *)
Definition fit (X y : Frame) (learner : string) (val_size : Q)
    (tree_params fit_params : option Params) (idx : list nat) : M unit :=
  let nb_states := index_len X in
  let train_idx := train_idx idx nb_states val_size in
  let val_idx := val_idx idx nb_states val_size in
  me <- get_self ;;
  let cols_standard :=
    feature_column_names (xfns_standard me) (nb_prev_actions me) in
  if negb (issubset cols_standard (columns X))
  then raise (ValueError (missing_message cols_standard X))
  else
    let cols_resultfree :=
      feature_column_names (xfns_resultfree me) (nb_prev_actions me) in
    X_train <- lift (iloc X train_idx) ;;
    X_train_standard <- lift (select X_train cols_standard) ;;
    X_train <- lift (iloc X train_idx) ;;
    X_train_resultfree <- lift (select X_train cols_resultfree) ;;
    y_train <- lift (iloc y train_idx) ;;
    X_val <- lift (iloc X val_idx) ;;
    X_val_standard <- lift (select X_val cols_standard) ;;
    X_val <- lift (iloc X val_idx) ;;
    X_val_resultfree <- lift (select X_val cols_resultfree) ;;
    y_val <- lift (iloc y val_idx) ;;
    for_each (columns y) (fun col =>
      for_each versions (fun model_version =>
        fit_body X_train_standard X_train_resultfree
                 X_val_standard X_val_resultfree y_train y_val
                 learner val_size tree_params fit_params col model_version)).

(** *** [_estimate_probabilities] *)

Definition _estimate_probabilities (X : Frame) : M Frame :=
  me <- get_self ;;
  let cols_standard :=
    feature_column_names (xfns_standard me) (nb_prev_actions me) in
  if negb (issubset cols_standard (columns X))
  then raise (ValueError (missing_message cols_standard X))
  else
    let cols_resultfree :=
      feature_column_names (xfns_resultfree me) (nb_prev_actions me) in
    fold_each (keys (__models me)) empty_frame (fun Y_hat col =>
      fold_each versions Y_hat (fun Y_hat model_version =>
        let cols :=
          if String.eqb model_version "standard" then cols_standard
          else cols_resultfree in
        me <- get_self ;;
        by_version <- getitem (__models me) col ;;
        model <- getitem by_version model_version ;;
        X_cols <- lift (select X cols) ;;
        _ <- emit (PredictCall model X_cols) ;;
        proba <- lift (predict_proba E model X_cols) ;;
        lift (setcol Y_hat (col ++ "-" ++ model_version) (map snd proba)))).

(** *** [rate] *)

Definition rate (game : Game E) (game_actions : Actions E)
    (game_states : option Frame) : M Frame :=
  me <- get_self ;;
  if is_empty (__models me) then raise NotFittedError
  else
    let game_actions_with_names := add_names E game_actions in
    game_states <-
      match game_states with
      | None => compute_features game game_actions
      | Some g => ret g
      end ;;
    y_hat <- _estimate_probabilities game_states ;;
    p_scores_standard <- lift (getcol y_hat "scores-standard") ;;
    p_scores_resultfree <- lift (getcol y_hat "scores-resultfree") ;;
    p_concedes_standard <- lift (getcol y_hat "concedes-standard") ;;
    p_concedes_resultfree <- lift (getcol y_hat "concedes-resultfree") ;;
    ret (formula_value E game_actions_with_names
           p_scores_standard p_scores_resultfree
           p_concedes_standard p_concedes_resultfree).

(** *** [score] *)

Definition score (X y : Frame) : M (dict (dict (value E))) :=
  me <- get_self ;;
  if is_empty (__models me) then raise NotFittedError
  else
    y_hat <- _estimate_probabilities X ;;
    me <- get_self ;;
    fold_each (keys (__models me)) [] (fun scores col =>
      let scores := set scores col [] in
      y_col <- lift (getcol y col) ;;
      y_hat_col <- lift (getcol y_hat col) ;;
      brier <- lift (brier_score_loss E y_col y_hat_col) ;;
      by_metric <- getitem scores col ;;
      let scores := set scores col (set by_metric "brier" brier) in
      y_col <- lift (getcol y col) ;;
      y_hat_col <- lift (getcol y_hat col) ;;
      auroc <- lift (roc_auc_score E y_col y_hat_col) ;;
      by_metric <- getitem scores col ;;
      ret (set scores col (set by_metric "auroc" auroc))).

End Model.

Arguments ret {E A}.
Arguments raise {E A}.
Arguments bind {E A B}.
Arguments lift {E A}.
Arguments get_self {E}.
Arguments set_models {E}.
Arguments emit {E}.
Arguments getitem {E A}.
Arguments for_each {E A}.
Arguments fold_each {E A S}.
Arguments __models {E}.
Arguments xfns_result {E}.
Arguments xfns_standard {E}.
Arguments xfns_resultfree {E}.
Arguments yfns {E}.
Arguments nb_prev_actions {E}.
Arguments self {E}.
Arguments trace {E}.
Arguments mkWorld {E}.
Arguments FitCall {E}.
Arguments PredictCall {E}.

(** ** A concrete set of collaborators

    One column per feature function; a classifier is known by the label it
    was trained on, and training fails on the labels listed in [broken]. *)

Module Sample.

Definition train (broken : list string) (l : Learner)
    (tree_params : dict (pyval Q)) (X : DataFrame Q) (y : Series Q)
    (fit_params : dict (pyval Q)) : result string :=
  if mem (name y) broken then inl (ExternalError "training failed")
  else inr (name y).

Definition externals (broken : list string) : Externals :=
  {| value := Q;
     Model := string;
     Actions := unit;
     Game := unit;
     GameStates := nat;
     FeatureTransfomer := string;
     LabelFunction := string;
     add_names := fun a => a;
     home_team_id := fun _ => 0%Z;
     fs_actiontype_onehot := "actiontype_onehot";
     fs_bodypart_onehot := "bodypart_onehot";
     fs_time := "time";
     fs_startlocation := "startlocation";
     fs_endlocation := "endlocation";
     fs_startpolar := "startpolar";
     fs_endpolar := "endpolar";
     fs_movement := "movement";
     fs_team := "team";
     fs_time_delta := "time_delta";
     fs_space_delta := "space_delta";
     fs_goalscore := "goalscore";
     fs_result_onehot := "result_onehot";
     fs_actiontype_result_onehot := "actiontype_result_onehot";
     fs_gamestates := fun _ _ => 2%nat;
     fs_play_left_to_right := fun gs _ => gs;
     transform := fun fn gs => mkFrame gs [mkSeries fn false (repeat 0%Q gs)];
     transform_columns := fun fn _ => [fn];
     lab_scores := "scores";
     lab_concedes := "concedes";
     label := fun fn _ => mkFrame 2 [mkSeries fn false [0%Q; 0%Q]];
     formula_value := fun _ a b c d => mkFrame (List.length (values a)) [a; b; c; d];
     xgboost_installed := true;
     catboost_installed := true;
     lightgbm_installed := true;
     classifier_fit := train broken;
     predict_proba := fun _ X => inr (repeat ((1 # 2)%Q, (1 # 2)%Q) (index_len X));
     brier_score_loss := fun _ _ => inr 0%Q;
     roc_auc_score := fun _ _ => inr 0%Q |}.

(** A frame of [n] rows holding the given columns. *)
Definition frame (n : nat) (cols : list string) : DataFrame Q :=
  mkFrame n (map (fun c => mkSeries c false (repeat 0%Q n)) cols).

Definition labels (n : nat) : DataFrame Q := frame n ["scores"; "concedes"].

(** Features of an instance built with [xfns = ["time"]] and
    [xfns_result = ["result_onehot"]]. *)
Definition features (n : nat) : DataFrame Q := frame n ["time"; "result_onehot"].

Definition fresh (broken : list string) : World (externals broken) :=
  mkWorld (__init__ (externals broken) (Some ["time"]) (Some ["result_onehot"]) 3) [].

End Sample.

(** ** Column sets of the two feature sets *)

Definition cols_standard {E} (me : HybridVAEP E) : list string :=
  feature_column_names E (xfns_standard me) (nb_prev_actions me).

Definition cols_resultfree {E} (me : HybridVAEP E) : list string :=
  feature_column_names E (xfns_resultfree me) (nb_prev_actions me).

Definition cols_result {E} (me : HybridVAEP E) : list string :=
  feature_column_names E (xfns_result me) (nb_prev_actions me).

Definition strict_superset (a b : list string) : Prop :=
  incl b a /\ exists c, In c a /\ ~ In c b.

(** The configuration part of an instance: every field but [__models]. *)
Definition config {E} (me : HybridVAEP E) :=
  (xfns_result me, xfns_standard me, xfns_resultfree me, yfns me, nb_prev_actions me).

(** What [__init__] establishes and every method keeps. *)
Definition constructed {E} (me : HybridVAEP E) : Prop :=
  xfns_standard me = (xfns_resultfree me ++ xfns_result me)%list /\
  keys (__models me) = ["scores"; "concedes"].

(** [self.__models[col][model_version]], when present. *)
Definition stored {E} (me : HybridVAEP E) (col model_version : string)
  : option (Model E) :=
  match get (__models me) col with
  | Some by_version => get by_version model_version
  | None => None
  end.

Definition with_models {E} (me : HybridVAEP E) (d : dict (dict (Model E)))
  : HybridVAEP E :=
  mkHybridVAEP E d (xfns_result me) (xfns_standard me) (xfns_resultfree me)
    (yfns me) (nb_prev_actions me).

(** The closed registry of learners. *)
Definition learner_of_name (learner : string) : option Learner :=
  if String.eqb learner "xgboost" then Some XGBoost
  else if String.eqb learner "catboost" then Some CatBoost
  else if String.eqb learner "lightgbm" then Some LightGBM
  else None.

Definition installed (E : Externals) (l : Learner) : bool :=
  match l with
  | XGBoost => xgboost_installed E
  | CatBoost => catboost_installed E
  | LightGBM => lightgbm_installed E
  end.

Definition backend (E : Externals) (l : Learner) :=
  match l with
  | XGBoost => _fit_xgboost E
  | CatBoost => _fit_catboost E
  | LightGBM => _fit_lightgbm E
  end.

Definition import_message (l : Learner) : string :=
  match l with
  | XGBoost => "xgboost is not installed."
  | CatBoost => "catboost is not installed."
  | LightGBM => "lightgbm is not installed."
  end.

Definition default_tree_params {V} (l : Learner) : dict (pyval V) :=
  match l with
  | CatBoost => [("eval_metric", PStr "BrierScore");
                 ("loss_function", PStr "Logloss");
                 ("iterations", PInt 100)]
  | _ => [("n_estimators", PInt 100); ("max_depth", PInt 3)]
  end.

Definition default_fit_params {V} (l : Learner) (X : DataFrame V) : dict (pyval V) :=
  match l with
  | CatBoost => [("cat_features", PIntList (nonzero (map category (series X))));
                 ("verbose", PBool true)]
  | _ => [("eval_metric", PStr "auc"); ("verbose", PBool true)]
  end.

(** The fit-time parameters a backend receives, given what the caller
    supplied and the evaluation set [fit] prepared. *)
Definition passed_fit_params {E} (l : Learner) (X : DataFrame (value E))
    (fit_params : option (dict (pyval (value E))))
    (eval_set : option (list (DataFrame (value E) * Series (value E))))
  : dict (pyval (value E)) :=
  let base :=
    match fit_params with Some p => p | None => default_fit_params l X end in
  match eval_set with
  | Some es => merge base (val_params E es)
  | None => base
  end.

Definition passed_tree_params {E} (l : Learner)
    (tree_params : option (dict (pyval (value E)))) : dict (pyval (value E)) :=
  match tree_params with Some p => p | None => default_tree_params l end.

(** What the boosting library answered to a recorded training call. *)
Definition training {E} (ev : Event E) : option (result (Model E)) :=
  match ev with
  | FitCall l tp X y fp => Some (classifier_fit E l tp X y fp)
  | PredictCall _ _ => None
  end.

Definition fit_params_of {E} (ev : Event E) : dict (pyval (value E)) :=
  match ev with
  | FitCall _ _ _ _ fp => fp
  | PredictCall _ _ => []
  end.


(** The (label, feature set) pairs in the order [fit] visits them. *)
Definition slots_of (cols : list string) : list (string * string) :=
  list_prod cols versions.

(** A computation leaves [f] of the instance unchanged. *)
Definition keeps {E T A} (f : HybridVAEP E -> T) (m : M E A) : Prop :=
  forall w, f (self (fst (m w))) = f (self w).

(** [sub] occurs in [s]. *)
Definition occurs_in (sub s : string) : Prop :=
  exists pre post, s = pre ++ sub ++ post.

(** The evaluation set [fit] hands to a backend for one label. *)
Definition eval_set_for {E} (val_size : Q) (X_val y_val : DataFrame (value E))
    (col : string) : result (option (list (DataFrame (value E) * Series (value E)))) :=
  if negb (Qle_bool val_size 0)
  then match getcol y_val col with
       | inr s => inr (Some [(X_val, s)])
       | inl e => inl e
       end
  else inr None.

Definition pick {A} (model_version : string) (standard resultfree : A) : A :=
  if String.eqb model_version "standard" then standard else resultfree.

(** Training one sub-model and storing it. *)
Definition train_and_store {E} (l : Learner) (X : DataFrame (value E))
    (yc : Series (value E))
    (es : option (list (DataFrame (value E) * Series (value E))))
    (tp fp : option (dict (pyval (value E)))) (col mv : string) (w : World E)
  : World E * result unit :=
  if negb (installed E l) then (w, inl (ImportError (import_message l)))
  else
    let ev := FitCall l (passed_tree_params l tp) X yc (passed_fit_params l X fp es) in
    let tr := (trace w ++ [ev])%list in
    match classifier_fit E l (passed_tree_params l tp) X yc
            (passed_fit_params l X fp es) with
    | inr m =>
        match get (__models (self w)) col with
        | Some by_version =>
            (mkWorld
               (with_models (self w)
                  (set (__models (self w)) col (set by_version mv m)))
               tr,
             inr tt)
        | None => (mkWorld (self w) tr, inl (KeyError col))
        end
    | inl e => (mkWorld (self w) tr, inl e)
    end.

(** A recorded call is the training of one slot of a [fit]. *)
Definition call_of {E} (Xts Xtr Xvs Xvr y_val : DataFrame (value E))
    (learner : string) (val_size : Q) (tp fp : option (dict (pyval (value E))))
    (s : string * string) (ev : Event E) : Prop :=
  exists l yc es,
    learner_of_name learner = Some l /\
    eval_set_for val_size (pick (snd s) Xvs Xvr) y_val (fst s) = inr es /\
    ev = FitCall l (passed_tree_params l tp) (pick (snd s) Xts Xtr) yc
           (passed_fit_params l (pick (snd s) Xts Xtr) fp es).

(** A computation raises only exceptions that satisfy [P]. *)
Definition raises_only {E A} (P : exn -> Prop) (m : M E A) : Prop :=
  forall w e, snd (m w) = inl e -> P e.

(** A computation adds to the record of calls only events that satisfy [P]. *)
Definition emits {E A} (P : Event E -> Prop) (m : M E A) : Prop :=
  forall w, exists new,
    trace (fst (m w)) = (trace w ++ new)%list /\ Forall P new.

(** One round of the double loop of [_estimate_probabilities]: the
    probabilities of one classifier become one column of [Y_hat]. *)
Definition predict_step (E : Externals) (X : DataFrame (value E))
    (cols_standard cols_resultfree : list string) (Y_hat : DataFrame (value E))
    (col model_version : string) : M E (DataFrame (value E)) :=
  let cols :=
    if String.eqb model_version "standard" then cols_standard
    else cols_resultfree in
  bind get_self (fun me =>
  bind (getitem (__models me) col) (fun by_version =>
  bind (getitem by_version model_version) (fun model =>
  bind (lift (select X cols)) (fun X_cols =>
  bind (emit (PredictCall model X_cols)) (fun _ =>
  bind (lift (predict_proba E model X_cols)) (fun proba =>
  lift (setcol Y_hat (col ++ "-" ++ model_version) (map snd proba)))))))).

(** The same collaborators with another set of installed libraries. *)
Definition with_installed (E : Externals) (xgb cat lgb : bool) : Externals :=
  let '(mkExternals f0 f1 f2 f3 f4 f5 f6 f7 f8 f9 f10 f11 f12 f13 f14 f15 f16 f17 f18 f19 f20 f21 f22 f23 f24 f25 f26 f27 f28 f29 f30 f31 f32 f33 f34 f35 f36 f37) := E in
  mkExternals f0 f1 f2 f3 f4 f5 f6 f7 f8 f9 f10 f11 f12 f13 f14 f15 f16 f17 f18 f19 f20 f21 f22 f23 f24 f25 f26 f27 f28 f29 f30 xgb cat lgb f34 f35 f36 f37.

(** The training of one slot, as [fit] performs it on success: the rows
    [train_idx] of [X] restricted to the columns of the feature set, the
    rows [train_idx] of the label column, and the evaluation set. *)
Definition trained_from {E} (me : HybridVAEP E) (X y : DataFrame (value E))
    (learner : string) (val_size : Q) (tp fp : option (dict (pyval (value E))))
    (idx : list nat) (col mv : string) (m : Model E) : Prop :=
  exists l X_train X_cols y_train y_col X_val X_val_cols y_val es,
    learner_of_name learner = Some l /\
    iloc X (train_idx idx (index_len X) val_size) = inr X_train /\
    select X_train (pick mv (cols_standard me) (cols_resultfree me)) = inr X_cols /\
    iloc y (train_idx idx (index_len X) val_size) = inr y_train /\
    getcol y_train col = inr y_col /\
    iloc X (val_idx idx (index_len X) val_size) = inr X_val /\
    select X_val (pick mv (cols_standard me) (cols_resultfree me)) = inr X_val_cols /\
    iloc y (val_idx idx (index_len X) val_size) = inr y_val /\
    eval_set_for val_size X_val_cols y_val col = inr es /\
    classifier_fit E l (passed_tree_params l tp) X_cols y_col
      (passed_fit_params l X_cols fp es) = inr m.

(** The training call the loop of [fit] records for the slot [s], over the
    frames cut before the loop: the label column is that of the training
    rows, the evaluation set that of the validation rows. *)
Definition slot_call {E} (Xts Xtr Xvs Xvr y_train y_val : DataFrame (value E))
    (learner : string) (val_size : Q) (tp fp : option (dict (pyval (value E))))
    (s : string * string) (ev : Event E) : Prop :=
  exists l yc es,
    learner_of_name learner = Some l /\
    eval_set_for val_size (pick (snd s) Xvs Xvr) y_val (fst s) = inr es /\
    getcol y_train (fst s) = inr yc /\
    ev = FitCall l (passed_tree_params l tp) (pick (snd s) Xts Xtr) yc
           (passed_fit_params l (pick (snd s) Xts Xtr) fp es).

(** The fit-time parameters [fp'] hold [early_stopping_rounds = 10] and the
    one-pair evaluation set [(X_val, y_val)], and agree with [base] on every
    other key. *)
Definition with_validation {V} (base fp' : dict (pyval V))
    (X_val : DataFrame V) (y_val : Series V) : Prop :=
  get fp' "early_stopping_rounds" = Some (PInt 10) /\
  get fp' "eval_set" = Some (PEvalSet [(X_val, y_val)]) /\
  forall k, k <> "early_stopping_rounds" -> k <> "eval_set" ->
            get fp' k = get base k.

(** [ev] is the training call of [fit] for the label [col] and the feature
    set [mv]: a call to the backend [learner] names, with the caller's tree
    parameters or the backend's defaults, on the training rows of [X]
    restricted to the columns of the feature set and the training rows of
    the label column.  Without a validation split the fit-time parameters
    are the caller's, or the backend's defaults when there are none; with
    one, they are these with [early_stopping_rounds] and [eval_set] set, the
    evaluation set being the validation rows of [X], restricted to the same
    columns, and the validation rows of the label column. *)
Definition call_for {E} (me : HybridVAEP E) (X y : DataFrame (value E))
    (learner : string) (val_size : Q) (tp fp : option (dict (pyval (value E))))
    (idx : list nat) (col mv : string) (ev : Event E) : Prop :=
  exists l X_train X_cols y_train y_col fp',
    learner_of_name learner = Some l /\
    iloc X (train_idx idx (index_len X) val_size) = inr X_train /\
    select X_train (pick mv (cols_standard me) (cols_resultfree me)) = inr X_cols /\
    iloc y (train_idx idx (index_len X) val_size) = inr y_train /\
    getcol y_train col = inr y_col /\
    ev = FitCall l
           (match tp with Some p => p | None => default_tree_params l end)
           X_cols y_col fp' /\
    let base :=
      match fp with Some p => p | None => default_fit_params l X_cols end in
    if Qle_bool val_size 0 then fp' = base
    else
      exists X_val X_val_cols y_val y_val_col,
        iloc X (val_idx idx (index_len X) val_size) = inr X_val /\
        select X_val (pick mv (cols_standard me) (cols_resultfree me))
        = inr X_val_cols /\
        iloc y (val_idx idx (index_len X) val_size) = inr y_val /\
        getcol y_val col = inr y_val_col /\
        with_validation base fp' X_val_cols y_val_col.

(** Any exception but [NotFittedError]. *)
Definition not_NotFittedError (e : exn) : Prop := e <> NotFittedError.

(** * Properties *)

Lemma init_constructed E xfns xfns_result nb :
  constructed (__init__ E xfns xfns_result nb).
Proof.
  unfold constructed, __init__; simpl.
  destruct xfns; auto.
Qed.

Lemma feature_column_names_app E a b nb :
  feature_column_names E (a ++ b)%list nb =
  (feature_column_names E a nb ++ feature_column_names E b nb)%list.
Proof. unfold feature_column_names. apply flat_map_app. Qed.

Lemma constructed_cols E (me : HybridVAEP E) :
  constructed me -> cols_standard me = (cols_resultfree me ++ cols_result me)%list.
Proof.
  intros [H _]. unfold cols_standard, cols_resultfree, cols_result.
  rewrite H. apply feature_column_names_app.
Qed.

(** C9, as stated, fails: with an empty [xfns_result] the two feature sets
    coincide, so the standard columns are not a strict superset. *)
Lemma C9_empty_result_not_strict :
  let me := __init__ (Sample.externals []) None (Some []) 3 in
  ~ strict_superset (cols_standard me) (cols_resultfree me).
Proof.
  intros me [_ [c [Hin Hnot]]]. apply Hnot. vm_compute in Hin |- *. exact Hin.
Qed.

(** C9, amended: the standard feature columns always include the result-free
    ones, and the inclusion is strict exactly when [xfns_result] yields some
    column that [xfns] does not yield. *)
Theorem C9_standard_includes_resultfree E xfns xfns_result nb :
  let me := __init__ E xfns xfns_result nb in
  incl (cols_resultfree me) (cols_standard me) /\
  (strict_superset (cols_standard me) (cols_resultfree me) <->
   exists c, In c (cols_result me) /\ ~ In c (cols_resultfree me)).
Proof.
  intros me.
  pose proof (constructed_cols E me (init_constructed E xfns xfns_result nb)) as Hc.
  rewrite Hc. split.
  - apply incl_appl, incl_refl.
  - split.
    + intros [_ [c [Hin Hnot]]]. exists c. split; auto.
      apply in_app_or in Hin. destruct Hin; [contradiction | assumption].
    + intros [c [Hin Hnot]]. split.
      * apply incl_appl, incl_refl.
      * exists c. split; auto. apply in_or_app. now right.
Qed.

(** ** Running the monad *)

Lemma bind_inr E A B (m : M E A) (k : A -> M E B) w w1 a :
  m w = (w1, inr a) -> bind m k w = k a w1.
Proof. intros H. unfold bind. now rewrite H. Qed.

Lemma bind_inl E A B (m : M E A) (k : A -> M E B) w w1 e :
  m w = (w1, inl e) -> bind m k w = (w1, inl e).
Proof. intros H. unfold bind. now rewrite H. Qed.

Lemma bind_cases E A B (m : M E A) (k : A -> M E B) w w' r :
  bind m k w = (w', r) ->
  (exists w1 a, m w = (w1, inr a) /\ k a w1 = (w', r)) \/
  (exists e, m w = (w', inl e) /\ r = inl e).
Proof.
  unfold bind. destruct (m w) as [w1 [e | a]]; intros H.
  - right. exists e. inversion H; subst. auto.
  - left. exists w1, a. auto.
Qed.

Lemma lift_run E A (r : result A) (w : World E) : lift r w = (w, r).
Proof. destruct r; reflexivity. Qed.

Lemma getitem_run E A (d : dict A) k (w : World E) :
  getitem d k w = (w, match get d k with Some a => inr a | None => inl (KeyError k) end).
Proof. unfold getitem. destruct (get d k); reflexivity. Qed.

(** ** Frame properties: what a computation leaves alone *)

Section Keeps.
Context {E : Externals} {T : Type} (f : HybridVAEP E -> T).

Lemma keeps_ret A (a : A) : keeps f (ret a).
Proof. intros w. reflexivity. Qed.

Lemma keeps_raise A e : keeps f (@raise E A e).
Proof. intros w. reflexivity. Qed.

Lemma keeps_lift A (r : result A) : keeps f (lift r).
Proof. intros w. now rewrite lift_run. Qed.

Lemma keeps_get_self : keeps f get_self.
Proof. intros w. reflexivity. Qed.

Lemma keeps_emit ev : keeps f (emit ev).
Proof. intros w. reflexivity. Qed.

Lemma keeps_getitem A (d : dict A) k : keeps f (getitem d k).
Proof. intros w. now rewrite getitem_run. Qed.

Lemma keeps_bind A B (m : M E A) (k : A -> M E B) :
  keeps f m -> (forall a, keeps f (k a)) -> keeps f (bind m k).
Proof.
  intros Hm Hk w. unfold bind. specialize (Hm w).
  destruct (m w) as [w1 [e | a]]; simpl in *; auto.
  rewrite <- Hm. apply Hk.
Qed.

Lemma keeps_for_each A (l : list A) body :
  (forall a, keeps f (body a)) -> keeps f (for_each l body).
Proof.
  intros Hb. induction l as [| a l IH]; simpl.
  - apply keeps_ret.
  - apply keeps_bind; auto.
Qed.

Lemma keeps_fold_each A S (l : list A) (s : S) body :
  (forall s a, keeps f (body s a)) -> keeps f (fold_each l s body).
Proof.
  intros Hb. revert s. induction l as [| a l IH]; intros s; simpl.
  - apply keeps_ret.
  - apply keeps_bind; auto.
Qed.

End Keeps.

Lemma keeps_config_set_models E d : keeps (@config E) (set_models d).
Proof. intros w. reflexivity. Qed.

Ltac keeps_step :=
  match goal with
  | |- keeps _ (bind _ _) => apply keeps_bind; [| intros ?]
  | |- keeps _ (ret _) => apply keeps_ret
  | |- keeps _ (raise _) => apply keeps_raise
  | |- keeps _ (lift _) => apply keeps_lift
  | |- keeps _ get_self => apply keeps_get_self
  | |- keeps _ (emit _) => apply keeps_emit
  | |- keeps _ (getitem _ _) => apply keeps_getitem
  | |- keeps _ (for_each _ _) => apply keeps_for_each; intros ?
  | |- keeps _ (fold_each _ _ _) => apply keeps_fold_each; intros ? ?
  | |- keeps config (set_models _) => apply keeps_config_set_models
  | |- keeps _ (if ?b then _ else _) => destruct b
  | |- keeps _ (match ?x with _ => _ end) => destruct x
  end.

Ltac keeps_auto := cbv zeta; repeat keeps_step.

Lemma keeps_compute_features E T (f : HybridVAEP E -> T) game actions :
  keeps f (compute_features E game actions).
Proof. unfold compute_features. keeps_auto. Qed.

Lemma keeps_compute_labels E T (f : HybridVAEP E -> T) game actions :
  keeps f (compute_labels E game actions).
Proof. unfold compute_labels. keeps_auto. Qed.

Lemma keeps_estimate E T (f : HybridVAEP E -> T) X :
  keeps f (_estimate_probabilities E X).
Proof. unfold _estimate_probabilities. keeps_auto. Qed.

Lemma keeps_rate E T (f : HybridVAEP E -> T) game actions gs :
  keeps f (rate E game actions gs).
Proof.
  unfold rate. keeps_auto;
    try apply keeps_compute_features; try apply keeps_estimate; keeps_auto.
Qed.

Lemma keeps_score E T (f : HybridVAEP E -> T) X y :
  keeps f (score E X y).
Proof. unfold score. keeps_auto; try apply keeps_estimate; keeps_auto. Qed.

Lemma keeps_config_fit_backend E X y es tp fp :
  keeps config (_fit_xgboost E X y es tp fp) /\
  keeps config (_fit_catboost E X y es tp fp) /\
  keeps config (_fit_lightgbm E X y es tp fp).
Proof.
  unfold _fit_xgboost, _fit_catboost, _fit_lightgbm. repeat split; keeps_auto.
Qed.

Lemma keeps_config_fit E X y learner val_size tp fp idx :
  keeps config (fit E X y learner val_size tp fp idx).
Proof.
  unfold fit, fit_body, store_model. keeps_auto;
    try apply keeps_config_fit_backend; keeps_auto.
Qed.

(** C10: [fit] changes no field but [__models]; [rate], [score],
    [compute_features] and [compute_labels] change no field at all.  Hence
    the column sets required of a feature matrix are the same before and
    after any of them. *)
Theorem C10_configuration_is_preserved E (w : World E)
    X y learner val_size tp fp idx game actions gs :
  let after_fit := self (fst (fit E X y learner val_size tp fp idx w)) in
  config after_fit = config (self w) /\
  cols_standard after_fit = cols_standard (self w) /\
  cols_resultfree after_fit = cols_resultfree (self w) /\
  self (fst (rate E game actions gs w)) = self w /\
  self (fst (score E X y w)) = self w /\
  self (fst (compute_features E game actions w)) = self w /\
  self (fst (compute_labels E game actions w)) = self w.
Proof.
  intros after_fit.
  assert (Hc : config after_fit = config (self w))
    by apply keeps_config_fit.
  split; [exact Hc |].
  unfold cols_standard, cols_resultfree. unfold config in Hc.
  inversion Hc as [[H1 H2 H3 H4 H5]].
  repeat split.
  - apply (keeps_rate E _ (fun me => me)).
  - apply (keeps_score E _ (fun me => me)).
  - apply (keeps_compute_features E _ (fun me => me)).
  - apply (keeps_compute_labels E _ (fun me => me)).
Qed.

(** ** Names as sets *)

Lemma mem_In c l : mem c l = true <-> In c l.
Proof.
  unfold mem. rewrite existsb_exists. split.
  - intros [x [Hin Heq]]. apply String.eqb_eq in Heq. now subst.
  - intros Hin. exists c. split; auto. apply String.eqb_refl.
Qed.

Lemma mem_false c l : mem c l = false <-> ~ In c l.
Proof.
  rewrite <- mem_In. destruct (mem c l); split; congruence.
Qed.

Lemma issubset_incl a b : issubset a b = true <-> incl a b.
Proof.
  unfold issubset. rewrite forallb_forall. split.
  - intros H c Hc. apply mem_In. auto.
  - intros H c Hc. apply mem_In. auto.
Qed.

Lemma issubset_false a b :
  (exists c, In c a /\ ~ In c b) -> issubset a b = false.
Proof.
  intros [c [Hin Hnot]]. destruct (issubset a b) eqn:Hs; auto.
  apply issubset_incl in Hs. elim Hnot. auto.
Qed.

Lemma difference_In a b c : In c (difference a b) <-> In c a /\ ~ In c b.
Proof.
  induction a as [| x a IH]; simpl.
  - tauto.
  - destruct (mem x b) eqn:Hb; simpl.
    + apply mem_In in Hb. rewrite IH. split.
      * tauto.
      * intros [[Heq | Hin] Hnot]; [subst; contradiction | tauto].
    + apply mem_false in Hb.
      destruct (mem x (difference a b)) eqn:Hr.
      * apply mem_In in Hr. rewrite IH. split; [tauto |].
        intros [[Heq | Hin] Hnot]; [subst; now apply IH | tauto].
      * simpl. rewrite IH. split.
        -- intros [Heq | [Hin Hnot]]; [subst; tauto | tauto].
        -- intros [[Heq | Hin] Hnot]; tauto.
Qed.

Lemma append_assoc (a b c : string) : (a ++ b) ++ c = a ++ (b ++ c).
Proof. induction a; simpl; congruence. Qed.

Lemma append_nil_r (a : string) : a ++ "" = a.
Proof. induction a; simpl; congruence. Qed.

Lemma join_occurs sep l c : In c l -> occurs_in c (join sep l).
Proof.
  unfold join. induction l as [| x l IH]; simpl; [tauto |].
  intros [Heq | Hin].
  - subst x. destruct l.
    + exists "", "". simpl. now rewrite append_nil_r.
    + exists "". eexists. simpl. reflexivity.
  - destruct l as [| x' l']; [destruct Hin |].
    destruct (IH Hin) as [pre [post Hj]].
    exists (x ++ sep ++ pre), post. rewrite Hj.
    now rewrite !append_assoc.
Qed.

Lemma occurs_in_app_l sub s t : occurs_in sub s -> occurs_in sub (s ++ t).
Proof.
  intros [pre [post H]]. exists pre, (post ++ t). subst s.
  now rewrite !append_assoc.
Qed.

(** ** Missing feature columns *)

Lemma fit_missing_columns E X y learner val_size tp fp idx (w : World E) :
  issubset (cols_standard (self w)) (columns X) = false ->
  fit E X y learner val_size tp fp idx w =
  (w, inl (ValueError (missing_message E (cols_standard (self w)) X))).
Proof.
  intros H. unfold fit, bind, get_self. cbv zeta.
  fold (cols_standard (self w)). now rewrite H.
Qed.

Lemma estimate_missing_columns E X (w : World E) :
  issubset (cols_standard (self w)) (columns X) = false ->
  _estimate_probabilities E X w =
  (w, inl (ValueError (missing_message E (cols_standard (self w)) X))).
Proof.
  intros H. unfold _estimate_probabilities, bind, get_self. cbv zeta.
  fold (cols_standard (self w)). now rewrite H.
Qed.

(** C7, as stated, fails on the class of the error: a feature matrix without
    the column [result_onehot] makes [fit] and [_estimate_probabilities]
    raise a [ValueError], not a [MissingFeatureError]; the code has no class
    of its own for this error, and the error of an unsupported learner is a
    [ValueError] as well. *)
Lemma C7_missing_columns_raise_ValueError :
  let E := Sample.externals [] in
  let w := Sample.fresh [] in
  let X := Sample.frame 4 ["time"] in
  exists e e' e'',
    fit E X (Sample.labels 4) "xgboost" (1 # 4) None None [2; 0; 3; 1]%nat w
    = (w, inl e) /\
    _estimate_probabilities E X w = (w, inl e') /\
    fit E (Sample.features 4) (Sample.labels 4) "sklearn" (1 # 4) None None
        [2; 0; 3; 1]%nat w
    = (w, inl e'') /\
    e = ValueError "result_onehot are not available in the features dataframe" /\
    e' = e /\
    exception_class e = "ValueError" /\
    exception_class e <> "MissingFeatureError" /\
    exception_class e'' = exception_class e.
Proof.
  intros E w X.
  exists (ValueError "result_onehot are not available in the features dataframe"),
         (ValueError "result_onehot are not available in the features dataframe"),
         (ValueError "A sklearn learner is not supported").
  repeat split; try (vm_compute; reflexivity).
  vm_compute. discriminate.
Qed.

(** C7, amended: when the feature matrix lacks a column of the standard
    feature set, [fit] and [_estimate_probabilities] raise a [ValueError];
    its message names every missing column, and the instance and the record
    of backend calls are left as they were: nothing is trained or
    predicted. *)
Theorem C7_missing_columns_are_reported E (w : World E)
    X y learner val_size tp fp idx :
  (exists c, In c (cols_standard (self w)) /\ ~ In c (columns X)) ->
  exists missing msg,
    (forall c, In c missing <-> In c (cols_standard (self w)) /\ ~ In c (columns X)) /\
    msg = join " and " missing ++ " are not available in the features dataframe" /\
    (forall c, In c missing -> occurs_in c msg) /\
    fit E X y learner val_size tp fp idx w = (w, inl (ValueError msg)) /\
    _estimate_probabilities E X w = (w, inl (ValueError msg)) /\
    exception_class (ValueError msg) = "ValueError".
Proof.
  intros Hmiss. apply issubset_false in Hmiss.
  exists (difference (cols_standard (self w)) (columns X)).
  eexists. split; [| split; [reflexivity | split; [| split; [| split]]]].
  - intros c. apply difference_In.
  - intros c Hc. apply occurs_in_app_l. now apply join_occurs.
  - now apply fit_missing_columns.
  - now apply estimate_missing_columns.
  - reflexivity.
Qed.

Lemma C7_witness :
  let w := Sample.fresh [] in
  let X := Sample.frame 4 ["time"] in
  (exists c, In c (cols_standard (self w)) /\ ~ In c (columns X)) /\
  exists msg,
    occurs_in "result_onehot" msg /\
    fit (Sample.externals []) X (Sample.labels 4) "xgboost" (1 # 4) None None
        [2; 0; 3; 1]%nat w
    = (w, inl (ValueError msg)).
Proof.
  intros w X.
  assert (Hm : exists c, In c (cols_standard (self w)) /\ ~ In c (columns X)).
  { exists "result_onehot". split; [vm_compute; tauto |].
    vm_compute. intros [H | []]. discriminate H. }
  split; [exact Hm |].
  destruct (C7_missing_columns_are_reported (Sample.externals []) w X (Sample.labels 4) "xgboost"
              (1 # 4) None None [2; 0; 3; 1]%nat Hm)
    as [missing [msg [Hin [_ [Hocc [Hfit _]]]]]].
  exists msg. split; [| exact Hfit].
  apply Hocc, Hin. split; [vm_compute; tauto |].
  vm_compute. intros [H | []]. discriminate H.
Defined.

(** ** Before any fit *)

Lemma compute_features_run E game actions (w : World E) :
  exists r, compute_features E game actions w = (w, r) /\
            forall e, r = inl e -> e <> NotFittedError.
Proof.
  unfold compute_features, bind, get_self. cbv zeta.
  rewrite lift_run. eexists. split; [reflexivity |].
  intros e. unfold concat_columns.
  destruct (map _ _); intros H; inversion H; discriminate.
Qed.

Lemma estimate_unfitted E X (w : World E) :
  __models (self w) = [("scores", []); ("concedes", [])] ->
  exists e, _estimate_probabilities E X w = (w, inl e) /\ e <> NotFittedError.
Proof.
  intros Hm.
  destruct (issubset (cols_standard (self w)) (columns X)) eqn:Hs.
  - exists (KeyError "standard"). split; [| discriminate].
    unfold _estimate_probabilities, bind at 1, get_self at 1. cbv zeta.
    fold (cols_standard (self w)). rewrite Hs, Hm. simpl.
    unfold bind, get_self. rewrite Hm. reflexivity.
  - eexists. split; [now apply estimate_missing_columns | discriminate].
Qed.

(** C1, on the code: a freshly constructed instance holds the two-key
    dictionary [{"scores": {}, "concedes": {}}], which is not empty, so the
    guard [if not self.__models] never fires.  [rate] and [score] on an
    unfitted instance fail, but with another exception than
    [NotFittedError]. *)
Theorem C1_unfitted_rate_raises_another_error E xfns xfns_result nb tr
    game actions gs X y :
  let w := mkWorld (__init__ E xfns xfns_result nb) tr in
  (exists e, rate E game actions gs w = (w, inl e) /\ e <> NotFittedError) /\
  (exists e, score E X y w = (w, inl e) /\ e <> NotFittedError).
Proof.
  intros w.
  assert (Hm : __models (self w) = [("scores", []); ("concedes", [])])
    by reflexivity.
  split.
  - unfold rate, bind at 1, get_self at 1. rewrite Hm. cbv zeta. unfold is_empty.
    cbv iota.
    assert (Hgs : exists r,
      (match gs with
       | Some g => ret g
       | None => compute_features E game actions
       end) w = (w, r) /\ forall e, r = inl e -> e <> NotFittedError).
    { destruct gs; [| apply compute_features_run].
      eexists. split; [reflexivity | discriminate]. }
    destruct Hgs as [[e | g] [Hrun Hne]].
    + exists e. split; [| now apply Hne].
      now rewrite (bind_inl _ _ _ _ _ _ _ _ Hrun).
    + rewrite (bind_inr _ _ _ _ _ _ _ _ Hrun).
      destruct (estimate_unfitted E g w Hm) as [e [He Hne']].
      exists e. split; [| exact Hne'].
      now rewrite (bind_inl _ _ _ _ _ _ _ _ He).
  - unfold score, bind at 1, get_self at 1. rewrite Hm. unfold is_empty. cbv iota.
    destruct (estimate_unfitted E X w Hm) as [e [He Hne']].
    exists e. split; [| exact Hne'].
    now rewrite (bind_inl _ _ _ _ _ _ _ _ He).
Qed.

(** The same at a concrete instance: [HybridVAEP().rate(...)] on features
    that hold every required column. *)
Example rate_before_fit_KeyError :
  snd (rate (Sample.externals []) tt tt (Some (Sample.features 2)) (Sample.fresh []))
  = inl (KeyError "standard").
Proof. vm_compute. reflexivity. Qed.

(** ** The train / validation split *)

Lemma slice_bound_nonneg n k :
  (0 <= k)%Z -> slice_bound n k = Nat.min n (Z.to_nat k).
Proof.
  intros H. unfold slice_bound.
  destruct (k <? 0)%Z eqn:Hk; [apply Z.ltb_lt in Hk; lia | reflexivity].
Qed.

Lemma in_skipn {A} (l : list A) n x : In x (skipn n l) -> In x l.
Proof.
  revert n. induction l as [| y l IH]; intros [| n]; simpl; auto.
  intros H. right. eauto.
Qed.

Lemma in_firstn {A} (l : list A) n x : In x (firstn n l) -> In x l.
Proof.
  revert n. induction l as [| y l IH]; intros [| n]; simpl; auto.
  - tauto.
  - intros [H | H]; eauto.
Qed.

Lemma firstn_skipn_disjoint {A} (l : list A) a b x :
  NoDup l -> (a <= b)%nat -> In x (firstn a l) -> ~ In x (skipn b l).
Proof.
  revert a b. induction l as [| y l IH]; intros a b Hnd Hab Hf Hs.
  - rewrite firstn_nil in Hf. destruct Hf.
  - inversion Hnd as [| ? ? Hy Hnd']; subst.
    destruct a as [| a]; [destruct Hf |].
    destruct b as [| b]; [lia |].
    simpl in Hf, Hs. destruct Hf as [Heq | Hf].
    + subst y. apply Hy. eapply in_skipn. exact Hs.
    + eapply (IH a b); eauto. lia.
Qed.

Lemma nth_not_in_firstn {A} (l : list A) k d :
  NoDup l -> (k < List.length l)%nat -> ~ In (nth k l d) (firstn k l).
Proof.
  revert k. induction l as [| y l IH]; intros k Hnd Hk; simpl in Hk; [lia |].
  inversion Hnd as [| ? ? Hy Hnd']; subst.
  destruct k as [| k]; simpl; [tauto |].
  intros [Heq | Hin].
  - apply Hy. rewrite Heq. apply nth_In. lia.
  - revert Hin. apply IH; auto. lia.
Qed.

Lemma nth_not_in_skipn {A} (l : list A) k d :
  NoDup l -> (k < List.length l)%nat -> ~ In (nth k l d) (skipn (S k) l).
Proof.
  revert k. induction l as [| y l IH]; intros k Hnd Hk; simpl in Hk; [lia |].
  inversion Hnd as [| ? ? Hy Hnd']; subst.
  destruct k as [| k].
  - simpl. exact Hy.
  - change (skipn (S (S k)) (y :: l)) with (skipn (S k) l).
    change (nth (S k) (y :: l) d) with (nth k l d).
    apply IH; auto. lia.
Qed.

(** The cut position is that of the binary64 product: with 90 rows and
    [val_size = 0.3] it is 62, where exact arithmetic would give 63; with a
    [val_size] of [1e-17] the difference [1 - val_size] is [1.0] and the cut
    is the number of rows. *)
Example train_count_examples :
  float_of_Q (3 # 10) = S754_finite false 5404319552844595 (-54) /\
  train_count 90 (3 # 10) = 62%Z /\
  train_count 90 (5404319552844595 # 18014398509481984) = 62%Z /\
  train_count 10 (1 # 10) = 9%Z /\
  train_count 4 (1 # 4) = 3%Z /\
  train_count 4 (1 # 100000000000000000) = 4%Z /\
  train_count 4 0 = 4%Z.
Proof. vm_compute. repeat split. Qed.

(** C3, on the code: the validation positions start at
    [floor(n * (1 - val_size)) + 1], one place after the end of the training
    positions.  The two parts are disjoint, but whenever the cut position
    the code computes lies among the [n] positions, the row at this position
    belongs to neither part: they do not cover all [n] rows. *)
Theorem C3_split_drops_one_row n val_size idx :
  Permutation idx (seq 0 n) ->
  (0 <= train_count n val_size < Z.of_nat n)%Z ->
  let train := train_idx idx n val_size in
  let val := val_idx idx n val_size in
  (forall i, In i train -> ~ In i val) /\
  (exists i, (i < n)%nat /\ ~ In i train /\ ~ In i val).
Proof.
  intros Hperm [Hlo Hhi] train val.
  assert (Hnd : NoDup idx).
  { apply Permutation_sym in Hperm.
    eapply Permutation_NoDup; [exact Hperm | apply seq_NoDup]. }
  assert (Hlen : List.length idx = n).
  { rewrite (Permutation_length Hperm). apply length_seq. }
  set (k := Z.to_nat (train_count n val_size)).
  assert (Htrain : train = firstn k idx).
  { unfold train, train_idx, slice_to. rewrite slice_bound_nonneg by lia.
    rewrite Hlen. f_equal. unfold k. lia. }
  assert (Hval : val = skipn (S k) idx).
  { unfold val, val_idx, slice_from. rewrite slice_bound_nonneg by lia.
    rewrite Hlen. f_equal. unfold k. lia. }
  rewrite Htrain, Hval. split.
  - intros i Hi. apply (firstn_skipn_disjoint idx k (S k) i Hnd); [lia | exact Hi].
  - exists (nth k idx 0%nat).
    assert (Hk : (k < List.length idx)%nat) by (unfold k; lia).
    split; [| split].
    + assert (Hin : In (nth k idx 0%nat) idx) by (apply nth_In; exact Hk).
      apply (Permutation_in _ Hperm) in Hin. apply in_seq in Hin. lia.
    + now apply nth_not_in_firstn.
    + now apply nth_not_in_skipn.
Qed.

Lemma C3_witness :
  let idx := [2; 0; 3; 1]%nat in
  (0 <= train_count 4 (1 # 4) < Z.of_nat 4)%Z /\
  train_idx idx 4 (1 # 4) = [2; 0; 3]%nat /\
  val_idx idx 4 (1 # 4) = [] /\
  exists i, (i < 4)%nat /\
            ~ In i (train_idx idx 4 (1 # 4)) /\ ~ In i (val_idx idx 4 (1 # 4)).
Proof.
  intros idx.
  assert (Hcut : (0 <= train_count 4 (1 # 4) < Z.of_nat 4)%Z)
    by (vm_compute; split; [discriminate | reflexivity]).
  split; [exact Hcut |].
  split; [vm_compute; reflexivity | split; [vm_compute; reflexivity |]].
  refine (proj2 (C3_split_drops_one_row 4 (1 # 4) idx _ Hcut)).
  unfold idx. simpl.
  apply Permutation_sym.
  apply (Permutation_cons_app [2%nat] [3; 1]%nat 0%nat).
  apply (Permutation_cons_app [2; 3]%nat [] 1%nat).
  apply (Permutation_cons_app [] [3]%nat 2%nat).
  apply Permutation_refl.
Defined.

(** ** Dictionaries *)

Lemma get_set_same {V} (d : dict V) k v : get (set d k v) k = Some v.
Proof.
  induction d as [| [k' v'] d IH]; simpl.
  - now rewrite String.eqb_refl.
  - destruct (String.eqb k k') eqn:Hk; simpl; rewrite Hk; auto.
Qed.

Lemma get_set_other {V} (d : dict V) k k' v :
  k <> k' -> get (set d k v) k' = get d k'.
Proof.
  intros Hne. induction d as [| [k0 v0] d IH]; simpl.
  - destruct (String.eqb k' k) eqn:Hk; auto.
    apply String.eqb_eq in Hk. congruence.
  - destruct (String.eqb k k0) eqn:Hk; simpl.
    + apply String.eqb_eq in Hk. subst k0.
      destruct (String.eqb k' k) eqn:Hk'; auto.
      apply String.eqb_eq in Hk'. congruence.
    + destruct (String.eqb k' k0); auto.
Qed.

Lemma keys_set_present {V} (d : dict V) k v :
  In k (keys d) -> keys (set d k v) = keys d.
Proof.
  unfold keys. induction d as [| [k' v'] d IH]; simpl; [tauto |].
  intros Hin. destruct (String.eqb k k') eqn:Hk; simpl; auto.
  f_equal. apply IH. destruct Hin as [Heq | Hin]; auto.
  subst k'. rewrite String.eqb_refl in Hk. discriminate.
Qed.

Lemma get_in_keys {V} (d : dict V) k : In k (keys d) -> exists v, get d k = Some v.
Proof.
  unfold keys. induction d as [| [k' v'] d IH]; simpl; [tauto |].
  intros Hin. destruct (String.eqb k k') eqn:Hk; eauto.
  apply IH. destruct Hin as [Heq | Hin]; auto.
  subst k'. rewrite String.eqb_refl in Hk. discriminate.
Qed.

Lemma get_some_in_keys {V} (d : dict V) k v : get d k = Some v -> In k (keys d).
Proof.
  unfold keys. induction d as [| [k' v'] d IH]; simpl; [discriminate |].
  destruct (String.eqb k k') eqn:Hk; auto.
  apply String.eqb_eq in Hk. auto.
Qed.

(** ** One training call *)

Lemma backend_run E l X y es tp fp (w : World E) :
  backend E l X y es tp fp w =
  if negb (installed E l) then (w, inl (ImportError (import_message l)))
  else
    let ev := FitCall l (passed_tree_params l tp) X y (passed_fit_params l X fp es) in
    (mkWorld (self w) (trace w ++ [ev]),
     classifier_fit E l (passed_tree_params l tp) X y (passed_fit_params l X fp es)).
Proof.
  destruct l; simpl;
    unfold _fit_xgboost, _fit_catboost, _fit_lightgbm;
    match goal with |- context [negb ?b] => destruct b end; simpl; auto;
    unfold bind, emit; simpl; rewrite lift_run; reflexivity.
Qed.

Lemma store_model_run E col mv m (w : World E) :
  store_model E col mv m w =
  match get (__models (self w)) col with
  | Some by_version =>
      (mkWorld (with_models (self w)
                  (set (__models (self w)) col (set by_version mv m)))
               (trace w),
       inr tt)
  | None => (w, inl (KeyError col))
  end.
Proof.
  unfold store_model, bind, get_self. rewrite getitem_run.
  destruct (get (__models (self w)) col); reflexivity.
Qed.

Lemma train_and_store_run E l X yc es tp fp col mv (w : World E) :
  bind (backend E l X yc es tp fp) (fun m => store_model E col mv m) w =
  train_and_store l X yc es tp fp col mv w.
Proof.
  unfold bind, train_and_store. rewrite backend_run.
  destruct (negb (installed E l)); [reflexivity |]. cbv zeta.
  destruct (classifier_fit E l _ X yc _); [reflexivity |].
  now rewrite store_model_run.
Qed.

Lemma fit_body_run E Xts Xtr Xvs Xvr y_train y_val learner val_size tp fp
    col mv (w : World E) :
  fit_body E Xts Xtr Xvs Xvr y_train y_val learner val_size tp fp col mv w =
  match eval_set_for val_size (pick mv Xvs Xvr) y_val col with
  | inl e => (w, inl e)
  | inr es =>
      match learner_of_name learner with
      | None => (w, inl (ValueError (unsupported_message learner)))
      | Some l =>
          match getcol y_train col with
          | inl e => (w, inl e)
          | inr yc => train_and_store l (pick mv Xts Xtr) yc es tp fp col mv w
          end
      end
  end.
Proof.
  assert (Hstep : forall l es,
    bind (lift (getcol y_train col)) (fun yc =>
      bind (backend E l (pick mv Xts Xtr) yc es tp fp)
        (fun m => store_model E col mv m)) w =
    match getcol y_train col with
    | inl e => (w, inl e)
    | inr yc => train_and_store l (pick mv Xts Xtr) yc es tp fp col mv w
    end).
  { intros l es. unfold bind at 1. rewrite lift_run.
    destruct (getcol y_train col) as [e | yc]; [reflexivity |].
    apply train_and_store_run. }
  unfold fit_body, eval_set_for, learner_of_name. cbv zeta.
  fold (pick mv Xvs Xvr). fold (pick mv Xts Xtr).
  change (_fit_xgboost E) with (backend E XGBoost).
  change (_fit_catboost E) with (backend E CatBoost).
  change (_fit_lightgbm E) with (backend E LightGBM).
  unfold bind at 1.
  destruct (negb (Qle_bool val_size 0)).
  - unfold bind at 1. rewrite lift_run.
    destruct (getcol y_val col) as [e | s]; [reflexivity |].
    unfold ret at 1.
    destruct (String.eqb learner "xgboost"); [apply Hstep |].
    destruct (String.eqb learner "catboost"); [apply Hstep |].
    destruct (String.eqb learner "lightgbm"); [apply Hstep |].
    reflexivity.
  - unfold ret at 1.
    destruct (String.eqb learner "xgboost"); [apply Hstep |].
    destruct (String.eqb learner "catboost"); [apply Hstep |].
    destruct (String.eqb learner "lightgbm"); [apply Hstep |].
    reflexivity.
Qed.

(** ** Loops *)

Lemma for_each_app E A (l l' : list A) (body : A -> M E unit) w :
  for_each (l ++ l') body w = bind (for_each l body) (fun _ => for_each l' body) w.
Proof.
  revert w. induction l as [| a l IH]; intros w; simpl; [reflexivity |].
  unfold bind. destruct (body a w) as [w1 [e | []]]; [reflexivity |].
  rewrite IH. reflexivity.
Qed.

Lemma for_each_map E A B (g : A -> B) (l : list A) (body : B -> M E unit) w :
  for_each (map g l) body w = for_each l (fun a => body (g a)) w.
Proof.
  revert w. induction l as [| a l IH]; intros w; simpl; [reflexivity |].
  unfold bind. destruct (body (g a) w) as [w1 [e | []]]; auto.
Qed.

Lemma for_each_nested E A B (l1 : list A) (l2 : list B)
    (body : A -> B -> M E unit) w :
  for_each l1 (fun a => for_each l2 (body a)) w =
  for_each (list_prod l1 l2) (fun p => body (fst p) (snd p)) w.
Proof.
  revert w. induction l1 as [| a l1 IH]; intros w; simpl; [reflexivity |].
  rewrite for_each_app. unfold bind.
  rewrite for_each_map. simpl.
  change (fun a0 : B => body a a0) with (body a).
  destruct (for_each l2 (body a) w) as [w1 [e | []]]; auto.
Qed.

Lemma stored_update_same E (me : HybridVAEP E) col mv by_version m :
  stored (with_models me (set (__models me) col (set by_version mv m))) col mv
  = Some m.
Proof. unfold stored, with_models. simpl. now rewrite !get_set_same. Qed.

Lemma stored_update_other E (me : HybridVAEP E) col mv by_version m col' mv' :
  get (__models me) col = Some by_version ->
  (col', mv') <> (col, mv) ->
  stored (with_models me (set (__models me) col (set by_version mv m))) col' mv'
  = stored me col' mv'.
Proof.
  intros Hget Hne. unfold stored, with_models. simpl.
  destruct (String.eqb col col') eqn:Hc.
  - apply String.eqb_eq in Hc. subst col'.
    rewrite get_set_same, Hget. apply get_set_other. congruence.
  - apply String.eqb_neq in Hc. now rewrite get_set_other.
Qed.

Section Loop.
Context {E : Externals}.
Variables Xts Xtr Xvs Xvr y_train y_val : DataFrame (value E).
Variable learner : string.
Variable val_size : Q.
Variables tp fp : option (dict (pyval (value E))).

Let body (s : string * string) : M E unit :=
  fit_body E Xts Xtr Xvs Xvr y_train y_val learner val_size tp fp (fst s) (snd s).

Let called := call_of Xts Xtr Xvs Xvr y_val learner val_size tp fp.

Lemma body_cases s w w' r :
  body s w = (w', r) ->
  (w' = w /\ exists e, r = inl e) \/
  (exists ev,
      trace w' = (trace w ++ [ev])%list /\ called s ev /\
      ((exists e, training ev = Some (inl e) /\ r = inl e /\ self w' = self w) \/
       (exists m, training ev = Some (inr m) /\
                  get (__models (self w)) (fst s) = None /\
                  r = inl (KeyError (fst s)) /\ self w' = self w) \/
       (exists m by_version,
           training ev = Some (inr m) /\
           get (__models (self w)) (fst s) = Some by_version /\
           r = inr tt /\
           self w' = with_models (self w)
                       (set (__models (self w)) (fst s)
                          (set by_version (snd s) m))))).
Proof.
  unfold body. rewrite fit_body_run.
  destruct (eval_set_for val_size _ y_val (fst s)) as [e | es] eqn:Hes.
  { intros H; inversion H; subst. left. eauto. }
  destruct (learner_of_name learner) as [l |] eqn:Hl.
  2: { intros H; inversion H; subst. left. eauto. }
  destruct (getcol y_train (fst s)) as [e | yc].
  { intros H; inversion H; subst. left. eauto. }
  unfold train_and_store.
  destruct (negb (installed E l)).
  { intros H; inversion H; subst. left. eauto. }
  cbv zeta.
  set (ev := FitCall l _ _ yc _).
  assert (Hcall : called s ev) by (exists l, yc, es; auto).
  destruct (classifier_fit E l _ _ yc _) as [e | m] eqn:Hfit.
  - intros H; inversion H; subst. right. exists ev.
    split; [reflexivity | split; [exact Hcall |]].
    left. exists e. simpl. rewrite Hfit. auto.
  - destruct (get (__models (self w)) (fst s)) as [by_version |] eqn:Hget.
    + intros H; inversion H; subst. right. exists ev.
      split; [reflexivity | split; [exact Hcall |]].
      right. right. exists m, by_version. simpl. rewrite Hfit. auto.
    + intros H; inversion H; subst. right. exists ev.
      split; [reflexivity | split; [exact Hcall |]].
      right. left. exists m. simpl. rewrite Hfit. auto.
Qed.

(** Every call recorded by the loop is the training of one of its slots. *)
Lemma loop_calls slots w w' r :
  for_each slots body w = (w', r) ->
  exists new,
    trace w' = (trace w ++ new)%list /\
    Forall (fun ev => exists s, In s slots /\ called s ev) new.
Proof.
  revert w. induction slots as [| s slots IH]; intros w; simpl.
  - intros H; inversion H; subst. exists []. now rewrite app_nil_r.
  - intros H. apply bind_cases in H.
    destruct H as [[w1 [[] [Hb Hrest]]] | [e [Hb Hr]]].
    + apply IH in Hrest. destruct Hrest as [new [Htr Hall]].
      apply body_cases in Hb.
      destruct Hb as [[Hw [e He]] | [ev [Htr1 [Hcall _]]]]; [discriminate |].
      exists (ev :: new). split.
      * rewrite Htr, Htr1. now rewrite <- app_assoc.
      * constructor; [exists s; simpl; auto |].
        eapply Forall_impl; [| exact Hall].
        intros ev' [s' [Hin Hc]]. exists s'. simpl. auto.
    + apply body_cases in Hb.
      destruct Hb as [[Hw _] | [ev [Htr1 [Hcall _]]]].
      * subst w'. exists []. now rewrite app_nil_r.
      * exists [ev]. split; [exact Htr1 |].
        constructor; [exists s; simpl; auto | constructor].
Qed.


End Loop.

(** ** Frames *)

Lemma bind_lift E A B (r : result A) (k : A -> M E B) w :
  bind (lift r) k w = match r with inr a => k a w | inl e => (w, inl e) end.
Proof. unfold bind. rewrite lift_run. destruct r; reflexivity. Qed.

Lemma iloc_columns {V} (X X' : DataFrame V) idx :
  iloc X idx = inr X' -> columns X' = columns X.
Proof.
  unfold iloc. destruct (forallb _ idx); [| discriminate].
  intros H; inversion H; subst. unfold columns. simpl.
  rewrite map_map. reflexivity.
Qed.

Lemma iloc_ok {V} (X : DataFrame V) idx :
  (forall i, In i idx -> (i < index_len X)%nat) -> exists X', iloc X idx = inr X'.
Proof.
  intros H. unfold iloc.
  assert (Hall : forallb (fun i => (i <? index_len X)%nat) idx = true).
  { apply forallb_forall. intros i Hi. apply Nat.ltb_lt. auto. }
  rewrite Hall. eauto.
Qed.

Lemma first_missing_none cols have :
  incl cols have -> first_missing cols have = None.
Proof.
  induction cols as [| c cols IH]; simpl; auto.
  intros H. assert (Hc : mem c have = true) by (apply mem_In, H; now left).
  rewrite Hc. apply IH. intros x Hx. apply H. now right.
Qed.

Lemma select_ok {V} (X : DataFrame V) cols :
  incl cols (columns X) -> exists X', select X cols = inr X'.
Proof.
  intros H. unfold select. rewrite (first_missing_none _ _ H). eauto.
Qed.

Lemma getcol_ok {V} (X : DataFrame V) c :
  In c (columns X) -> exists s, getcol X c = inr s.
Proof.
  unfold getcol, columns. induction (series X) as [| s l IH]; simpl; [tauto |].
  intros [Heq | Hin].
  - subst c. rewrite String.eqb_refl. eauto.
  - destruct (String.eqb (name s) c); eauto.
Qed.

Lemma getcol_absent {V} (X : DataFrame V) c :
  ~ In c (columns X) -> getcol X c = inl (KeyError c).
Proof.
  unfold getcol, columns. induction (series X) as [| s l IH]; simpl; auto.
  intros H. destruct (String.eqb (name s) c) eqn:Hs.
  - apply String.eqb_eq in Hs. tauto.
  - apply IH. tauto.
Qed.

(** ** [fit] as a whole *)

(** [fit] either stops before its loop, leaving everything as it was, or
    runs the loop over the slots of the label frame. *)
Lemma fit_cases E X y learner val_size tp fp idx (w w' : World E) r :
  fit E X y learner val_size tp fp idx w = (w', r) ->
  (w' = w /\ exists e, r = inl e) \/
  (exists Xts Xtr Xvs Xvr y_train y_val,
      columns y_train = columns y /\ columns y_val = columns y /\
      for_each (slots_of (columns y))
        (fun s => fit_body E Xts Xtr Xvs Xvr y_train y_val learner val_size tp fp
                    (fst s) (snd s)) w = (w', r)).
Proof.
  unfold fit. cbv zeta. unfold bind at 1, get_self at 1.
  destruct (negb (issubset _ (columns X))).
  { intros H; inversion H; subst. left. eauto. }
  repeat (rewrite bind_lift; cbv beta iota;
          try match goal with
          | |- match ?r with _ => _ end = _ -> _ =>
              let e := fresh "e" in
              let a := fresh "a" in
              let Ha := fresh "Ha" in
              destruct r as [e | a] eqn:Ha;
              [intros H; inversion H; subst; left; eauto |]
          end).
  lazymatch goal with
  | |- context [fit_body E ?a ?b ?c ?d ?yt ?yv] =>
      intros H; right; exists a, b, c, d, yt, yv;
      split; [eapply iloc_columns; eauto |];
      split; [eapply iloc_columns; eauto |];
      rewrite <- H; symmetry;
      exact (for_each_nested E _ _ (columns y) versions
               (fit_body E a b c d yt yv learner val_size tp fp) w)
  end.
Qed.

(** When the feature matrix holds the required columns and the permutation
    addresses rows of both frames, [fit] reaches its loop. *)
Lemma fit_reaches_loop E X y learner val_size tp fp idx (w : World E) :
  constructed (self w) ->
  incl (cols_standard (self w)) (columns X) ->
  (forall i, In i idx -> (i < index_len X)%nat /\ (i < index_len y)%nat) ->
  exists Xts Xtr Xvs Xvr y_train y_val,
    columns y_train = columns y /\ columns y_val = columns y /\
    fit E X y learner val_size tp fp idx w =
    for_each (slots_of (columns y))
      (fun s => fit_body E Xts Xtr Xvs Xvr y_train y_val learner val_size tp fp
                  (fst s) (snd s)) w.
Proof.
  intros Hc Hincl Hidx.
  assert (Hfree : incl (cols_resultfree (self w)) (columns X)).
  { intros c Hin. apply Hincl. rewrite (constructed_cols E _ Hc).
    apply in_or_app. now left. }
  set (ti := train_idx idx (index_len X) val_size).
  set (vi := val_idx idx (index_len X) val_size).
  assert (Hti : forall i, In i ti -> In i idx)
    by (intros i; unfold ti, train_idx, slice_to; apply in_firstn).
  assert (Hvi : forall i, In i vi -> In i idx)
    by (intros i; unfold vi, val_idx, slice_from; apply in_skipn).
  destruct (iloc_ok X ti) as [Xt HXt]; [intros i Hi; apply Hidx; auto |].
  destruct (iloc_ok X vi) as [Xv HXv]; [intros i Hi; apply Hidx; auto |].
  destruct (iloc_ok y ti) as [yt Hyt]; [intros i Hi; apply Hidx; auto |].
  destruct (iloc_ok y vi) as [yv Hyv]; [intros i Hi; apply Hidx; auto |].
  destruct (select_ok Xt (cols_standard (self w))) as [Xts HXts].
  { rewrite (iloc_columns _ _ _ HXt). exact Hincl. }
  destruct (select_ok Xt (cols_resultfree (self w))) as [Xtr HXtr].
  { rewrite (iloc_columns _ _ _ HXt). exact Hfree. }
  destruct (select_ok Xv (cols_standard (self w))) as [Xvs HXvs].
  { rewrite (iloc_columns _ _ _ HXv). exact Hincl. }
  destruct (select_ok Xv (cols_resultfree (self w))) as [Xvr HXvr].
  { rewrite (iloc_columns _ _ _ HXv). exact Hfree. }
  exists Xts, Xtr, Xvs, Xvr, yt, yv.
  split; [eapply iloc_columns; eauto |].
  split; [eapply iloc_columns; eauto |].
  unfold fit. cbv zeta. unfold bind at 1, get_self at 1.
  fold (cols_standard (self w)). fold (cols_resultfree (self w)).
  fold ti. fold vi.
  assert (Hsub : issubset (cols_standard (self w)) (columns X) = true)
    by now apply issubset_incl.
  rewrite Hsub. cbv beta iota delta [negb].
  repeat (rewrite bind_lift;
          first [rewrite HXt | rewrite HXts | rewrite HXtr | rewrite Hyt
                | rewrite HXv | rewrite HXvs | rewrite HXvr | rewrite Hyv];
          cbv beta iota).
  exact (for_each_nested E _ _ (columns y) versions
           (fit_body E Xts Xtr Xvs Xvr yt yv learner val_size tp fp) w).
Qed.

Lemma slots_of_cons c cols :
  slots_of (c :: cols) = (c, "standard") :: (c, "resultfree") :: slots_of cols.
Proof. reflexivity. Qed.

Lemma in_slots_of cols s :
  In s (slots_of cols) <-> In (fst s) cols /\ In (snd s) versions.
Proof. destruct s as [c v]. apply in_prod_iff. Qed.

Lemma slots_of_NoDup cols : NoDup cols -> NoDup (slots_of cols).
Proof.
  induction 1 as [| c cols Hnotin Hnd IH]; [constructor |].
  rewrite slots_of_cons.
  assert (Hout : forall v, ~ In (c, v) (slots_of cols)).
  { intros v Hin. apply in_slots_of in Hin. simpl in Hin. tauto. }
  constructor.
  - intros [Heq | Hin]; [discriminate | now apply (Hout "standard")].
  - constructor; auto.
Qed.

(** ** Fit-time parameters *)

Lemma merge_val_params E (a : dict (pyval (value E))) es :
  get (merge a (val_params E es)) "early_stopping_rounds" = Some (PInt 10) /\
  get (merge a (val_params E es)) "eval_set" = Some (PEvalSet es) /\
  forall k, k <> "early_stopping_rounds" -> k <> "eval_set" ->
            get (merge a (val_params E es)) k = get a k.
Proof.
  unfold merge, val_params. simpl. repeat split.
  - rewrite get_set_other by discriminate. apply get_set_same.
  - apply get_set_same.
  - intros k H1 H2. rewrite !get_set_other by congruence. reflexivity.
Qed.


(** ** Unsupported learners *)

Lemma permutation_positions idx n i :
  Permutation idx (seq 0 n) -> In i idx -> (i < n)%nat.
Proof.
  intros Hp Hin. apply (Permutation_in _ Hp) in Hin. apply in_seq in Hin. lia.
Qed.

(** C6, as stated, fails: the columns of the feature matrix are checked
    before the learner name is looked at, and the name is looked at only
    inside the loop over the label columns.  With an unknown learner, a
    feature matrix that lacks a column raises the missing-column error, and
    a label frame without columns makes [fit] return normally. *)
Lemma C6_unknown_learner_other_outcomes :
  let E := Sample.externals [] in
  let w := Sample.fresh [] in
  learner_of_name "sklearn" = None /\
  fit E (Sample.frame 4 ["time"]) (Sample.labels 4) "sklearn" (1 # 4) None None
      [2; 0; 3; 1]%nat w
  = (w, inl (ValueError
               "result_onehot are not available in the features dataframe")) /\
  fit E (Sample.features 4) (Sample.frame 4 []) "sklearn" (1 # 4) None None
      [2; 0; 3; 1]%nat w
  = (w, inr tt).
Proof. vm_compute. repeat split. Qed.

(** C6, amended: when the feature matrix holds every required column, the
    label frame has at least one column and as many rows as the feature
    matrix, [fit] with a learner name outside the registry raises
    [ValueError("A <learner> learner is not supported")]; no backend is
    called and nothing is stored. *)
Theorem C6_unsupported_learner_is_rejected E (w : World E)
    X y learner val_size tp fp idx :
  learner_of_name learner = None ->
  constructed (self w) ->
  incl (cols_standard (self w)) (columns X) ->
  columns y <> [] ->
  Permutation idx (seq 0 (index_len X)) ->
  (index_len X <= index_len y)%nat ->
  fit E X y learner val_size tp fp idx w =
  (w, inl (ValueError ("A " ++ learner ++ " learner is not supported"))).
Proof.
  intros Hl Hc Hincl Hy Hperm Hlen.
  destruct (fit_reaches_loop E X y learner val_size tp fp idx w Hc Hincl)
    as [Xts [Xtr [Xvs [Xvr [yt [yv [Hyt [Hyv Hfit]]]]]]]].
  { intros i Hi. pose proof (permutation_positions _ _ _ Hperm Hi). lia. }
  rewrite Hfit. destruct (columns y) as [| c cols] eqn:Hcols; [congruence |].
  rewrite slots_of_cons. simpl for_each. unfold bind at 1.
  rewrite fit_body_run. simpl fst. simpl snd.
  assert (Hes : exists es,
             eval_set_for val_size (pick "standard" Xvs Xvr) yv c = inr es).
  { unfold eval_set_for. destruct (negb (Qle_bool val_size 0)); [| eauto].
    destruct (getcol_ok yv c) as [s Hs]; [rewrite Hyv; now left |].
    rewrite Hs. eauto. }
  destruct Hes as [es Hes]. rewrite Hes, Hl. reflexivity.
Qed.

Lemma C6_witness :
  let E := Sample.externals [] in
  let w := Sample.fresh [] in
  learner_of_name "sklearn" = None /\
  constructed (self w) /\
  fit E (Sample.features 4) (Sample.labels 4) "sklearn" (1 # 4) None None
      [2; 0; 3; 1]%nat w
  = (w, inl (ValueError "A sklearn learner is not supported")).
Proof.
  intros E w.
  assert (Hc : constructed (self w)) by (split; reflexivity).
  split; [reflexivity |]. split; [exact Hc |].
  apply (C6_unsupported_learner_is_rejected E w (Sample.features 4)
           (Sample.labels 4) "sklearn" (1 # 4) None None [2; 0; 3; 1]%nat).
  - reflexivity.
  - exact Hc.
  - vm_compute. tauto.
  - discriminate.
  - simpl. apply Permutation_sym.
    apply (Permutation_cons_app [2%nat] [3; 1]%nat 0%nat).
    apply (Permutation_cons_app [2; 3]%nat [] 1%nat).
    apply (Permutation_cons_app [] [3]%nat 2%nat).
    apply Permutation_refl.
  - simpl. lia.
Defined.

(** ** No validation split *)

Section LoopSucceeds.
Context {E : Externals}.
Variables Xts Xtr Xvs Xvr y_train y_val : DataFrame (value E).
Variable learner : string.
Variable l : Learner.
Variable val_size : Q.
Variables tp fp : option (dict (pyval (value E))).
Hypothesis Hlearner : learner_of_name learner = Some l.
Hypothesis Hinstalled : installed E l = true.
Hypothesis Hzero : val_size == 0.
Hypothesis Htrains :
  forall l tp X y fp, exists m, classifier_fit E l tp X y fp = inr m.


End LoopSucceeds.




(** ** [score] on a fitted instance *)

Lemma bind_inr_inv E A B (m : M E A) (k : A -> M E B) w w' b :
  bind m k w = (w', inr b) ->
  exists w1 a, m w = (w1, inr a) /\ k a w1 = (w', inr b).
Proof.
  intros H. apply bind_cases in H.
  destruct H as [[w1 [a [Hm Hk]]] | [e [_ He]]]; [eauto | discriminate].
Qed.

Lemma fold_each_inv E A S (I : S -> Prop) (l : list A) (body : S -> A -> M E S) :
  (forall a s w w' s', In a l -> I s -> body s a w = (w', inr s') -> I s') ->
  forall s w w' s', I s -> fold_each l s body w = (w', inr s') -> I s'.
Proof.
  induction l as [| a l IH]; intros Hbody s w w' s' Hs; simpl.
  - intros H; inversion H; subst. exact Hs.
  - intros H. apply bind_inr_inv in H. destruct H as [w1 [s1 [Hb Hrest]]].
    eapply IH; [| | exact Hrest].
    + intros a' s0 w0 w0' s0' Hin. apply Hbody. now right.
    + eapply Hbody; [now left | exact Hs | exact Hb].
Qed.

Lemma replace_series_names {V} (l : list (Series V)) s x :
  In x (map name (replace_series l s)) -> x = name s \/ In x (map name l).
Proof.
  induction l as [| s' l IH]; simpl.
  - intros [H | []]. now left.
  - destruct (String.eqb (name s) (name s')); simpl.
    + intros [H | H]; auto.
    + intros [H | H]; auto. destruct (IH H); auto.
Qed.

Lemma setcol_columns {V} (Y Y' : DataFrame V) c vals x :
  setcol Y c vals = inr Y' -> In x (columns Y') -> x = c \/ In x (columns Y).
Proof.
  unfold setcol, columns. destruct (series Y) as [| s l] eqn:Hs.
  - intros H; inversion H; subst. simpl. intros [Hx | []]. now left.
  - destruct (List.length vals =? index_len Y)%nat; [| discriminate].
    intros H; inversion H; subst. intros Hin.
    exact (replace_series_names (s :: l) (mkSeries c false vals) x Hin).
Qed.

(** The columns of the estimated probabilities are named
    ["<label>-<feature set>"]. *)
Lemma estimate_columns E X (w w' : World E) Y :
  _estimate_probabilities E X w = (w', inr Y) ->
  forall c, In c (columns Y) ->
    exists col mv, In col (keys (__models (self w))) /\ In mv versions /\
                   c = col ++ "-" ++ mv.
Proof.
  unfold _estimate_probabilities. cbv zeta. intros H.
  apply bind_inr_inv in H. destruct H as [w1 [me [Hme H]]].
  unfold get_self in Hme. inversion Hme; subst w1 me. clear Hme.
  destruct (negb (issubset _ (columns X))); [discriminate |].
  revert H.
  apply (fold_each_inv E _ _
           (fun Y => forall c, In c (columns Y) ->
              exists col mv, In col (keys (__models (self w))) /\
                             In mv versions /\ c = col ++ "-" ++ mv)).
  - intros col Y0 w0 w0' Y0' Hcol HY0.
    apply (fold_each_inv E _ _
             (fun Y => forall c, In c (columns Y) ->
                exists col mv, In col (keys (__models (self w))) /\
                               In mv versions /\ c = col ++ "-" ++ mv)).
    + intros mv Y1 w1 w1' Y1' Hmv HY1 Hb.
      repeat (apply bind_inr_inv in Hb;
              let wn := fresh "wn" in
              let a := fresh "a" in
              let Hstep := fresh "Hstep" in
              destruct Hb as [wn [a [Hstep Hb]]]).
      rewrite lift_run in Hb. inversion Hb as [[Hw Hset]].
      intros c Hc. destruct (setcol_columns _ _ _ _ _ Hset Hc) as [Heq | Hin].
      * exists col, mv. auto.
      * auto.
    + exact HY0.
  - intros c [].
Qed.

Lemma keeps_backend E T (f : HybridVAEP E -> T) l X y es tp fp :
  keeps f (backend E l X y es tp fp).
Proof.
  destruct l; simpl; unfold _fit_xgboost, _fit_catboost, _fit_lightgbm;
    keeps_auto.
Qed.

Lemma keeps_keys_store_model E col mv m :
  keeps (fun me : HybridVAEP E => keys (__models me)) (store_model E col mv m).
Proof.
  intros w. rewrite store_model_run.
  destruct (get (__models (self w)) col) as [by_version |] eqn:Hget; simpl; auto.
  apply keys_set_present. eapply get_some_in_keys; eauto.
Qed.

Lemma keeps_keys_fit E X y learner val_size tp fp idx :
  keeps (fun me : HybridVAEP E => keys (__models me))
        (fit E X y learner val_size tp fp idx).
Proof.
  unfold fit, fit_body.
  change (_fit_xgboost E) with (backend E XGBoost).
  change (_fit_catboost E) with (backend E CatBoost).
  change (_fit_lightgbm E) with (backend E LightGBM).
  keeps_auto;
    try apply keeps_backend; try apply keeps_keys_store_model; keeps_auto.
Qed.

Lemma fit_constructed E X y learner val_size tp fp idx (w : World E) :
  constructed (self w) ->
  constructed (self (fst (fit E X y learner val_size tp fp idx w))).
Proof.
  intros [Hx Hk].
  pose proof (keeps_config_fit E X y learner val_size tp fp idx w) as Hc.
  pose proof (keeps_keys_fit E X y learner val_size tp fp idx w) as Hkeys.
  unfold config in Hc. inversion Hc as [[H1 H2 H3 H4 H5]].
  split.
  - now rewrite H2, H3, H1.
  - simpl in Hkeys. now rewrite Hkeys.
Qed.

Lemma score_fails E X y (w : World E) :
  keys (__models (self w)) = ["scores"; "concedes"] ->
  exists e,
    snd (score E X y w) = inl e /\
    (forall w2 y_hat,
        _estimate_probabilities E X w = (w2, inr y_hat) ->
        In "scores" (columns y) -> e = KeyError "scores").
Proof.
  intros Hkeys. unfold score. unfold bind at 1, get_self at 1.
  destruct (__models (self w)) as [| kv d] eqn:Hm; [discriminate |].
  unfold is_empty. cbv iota. unfold bind at 1.
  destruct (_estimate_probabilities E X w) as [w2 [e | y_hat]] eqn:Hest.
  { exists e. split; [reflexivity |]. intros w2' y' H. discriminate. }
  assert (Hself : self w2 = self w).
  { pose proof (keeps_estimate E _ (fun me => me) X w) as Hk.
    rewrite Hest in Hk. exact Hk. }
  assert (Habsent : ~ In "scores" (columns y_hat)).
  { intros Hin.
    destruct (estimate_columns E X w w2 y_hat Hest _ Hin)
      as [col [mv [Hcol [Hmv Heq]]]].
    rewrite Hm, Hkeys in Hcol. simpl in Hcol, Hmv.
    destruct Hcol as [Hc | [Hc | []]]; destruct Hmv as [Hv | [Hv | []]];
      subst col mv; discriminate Heq. }
  unfold bind at 1, get_self at 1. rewrite Hself, Hm, Hkeys.
  simpl fold_each. unfold bind at 1. rewrite bind_lift.
  destruct (getcol y "scores") as [e | y_col] eqn:Hy.
  - exists e. split; [reflexivity |].
    intros w2' y_hat' _ Hin.
    destruct (getcol_ok y "scores" Hin) as [s Hs]. congruence.
  - rewrite bind_lift, (getcol_absent y_hat "scores" Habsent).
    exists (KeyError "scores"). split; [reflexivity | auto].
Qed.

(** C2, on the code: [_estimate_probabilities] names its columns
    ["scores-standard"], ["scores-resultfree"], ["concedes-standard"] and
    ["concedes-resultfree"], while [score] reads [y_hat["scores"]].  After
    any [fit] on a freshly constructed instance, [score] returns no metrics:
    it always ends in an exception, and this exception is [KeyError("scores")]
    as soon as the probabilities were estimated and [y] has a ["scores"]
    column. *)
Theorem C2_score_raises_on_fitted_instance E xfns xfns_result nb tr
    X y learner val_size tp fp idx X' y' :
  let w0 := mkWorld (__init__ E xfns xfns_result nb) tr in
  let w1 := fst (fit E X y learner val_size tp fp idx w0) in
  exists e,
    snd (score E X' y' w1) = inl e /\
    (forall w2 y_hat,
        _estimate_probabilities E X' w1 = (w2, inr y_hat) ->
        In "scores" (columns y') -> e = KeyError "scores").
Proof.
  intros w0 w1. apply score_fails.
  apply (fit_constructed E X y learner val_size tp fp idx w0).
  apply init_constructed.
Qed.

(** The same at a concrete instance: a fit that succeeds, then [score] on
    the training data. *)
Example score_after_fit_KeyError :
  let E := Sample.externals [] in
  let run := fit E (Sample.features 4) (Sample.labels 4) "xgboost" (1 # 4)
               None None [2; 0; 3; 1]%nat (Sample.fresh []) in
  snd run = inr tt /\
  snd (score E (Sample.features 4) (Sample.labels 4) (fst run))
  = inl (KeyError "scores").
Proof. vm_compute. split; reflexivity. Qed.

(** [rate] on the same fitted instance does return a rating. *)
Example rate_after_fit_returns :
  let E := Sample.externals [] in
  let run := fit E (Sample.features 4) (Sample.labels 4) "xgboost" (1 # 4)
               None None [2; 0; 3; 1]%nat (Sample.fresh []) in
  exists ratings,
    snd (rate E tt tt (Some (Sample.features 4)) (fst run)) = inr ratings.
Proof. vm_compute. eexists. reflexivity. Qed.

(** * Further properties of [fit] *)

(** ** Which backend is called, and what is left alone *)

(** X1: every call [fit] makes to a boosting library is a training call to
    the backend its [learner] argument names, with the caller's
    [tree_params] (or that backend's defaults when there are none); [fit]
    never asks for a prediction and never falls back to another backend. *)
Theorem fit_calls_only_the_named_backend E (w : World E)
    X y learner val_size tp fp idx :
  let run := fit E X y learner val_size tp fp idx w in
  exists new,
    trace (fst run) = (trace w ++ new)%list /\
    Forall (fun ev => exists l X' y' fp',
                learner_of_name learner = Some l /\
                ev = FitCall l (match tp with
                                | Some p => p
                                | None => default_tree_params l
                                end) X' y' fp')
           new.
Proof.
  intros run.
  destruct (fit_cases E X y learner val_size tp fp idx w (fst run) (snd run)
              (surjective_pairing run))
    as [[Hw _] | [Xts [Xtr [Xvs [Xvr [yt [yv [_ [_ Hloop]]]]]]]]].
  - rewrite Hw. exists []. rewrite app_nil_r. split; [reflexivity | constructor].
  - apply loop_calls in Hloop. destruct Hloop as [new [Htr Hall]].
    exists new. split; [exact Htr |].
    eapply Forall_impl; [| exact Hall].
    intros ev [s [_ [l [yc [es [Hl [_ Hev]]]]]]].
    exists l, (pick (snd s) Xts Xtr), yc,
      (passed_fit_params l (pick (snd s) Xts Xtr) fp es).
    split; [exact Hl | exact Hev].
Qed.

Section LoopFrame.
Context {E : Externals}.
Variables Xts Xtr Xvs Xvr y_train y_val : DataFrame (value E).
Variable learner : string.
Variable val_size : Q.
Variables tp fp : option (dict (pyval (value E))).

(** The loop writes no slot but its own. *)
Lemma loop_frame slots (w w' : World E) r :
  for_each slots
    (fun s => fit_body E Xts Xtr Xvs Xvr y_train y_val learner val_size tp fp
                (fst s) (snd s)) w = (w', r) ->
  forall s, ~ In s slots ->
            stored (self w') (fst s) (snd s) = stored (self w) (fst s) (snd s).
Proof.
  revert w. induction slots as [| s0 slots IH]; intros w; simpl.
  - intros H; inversion H; subst. reflexivity.
  - intros H s Hs. apply bind_cases in H.
    assert (Hstep : forall w1 r1,
      fit_body E Xts Xtr Xvs Xvr y_train y_val learner val_size tp fp
        (fst s0) (snd s0) w = (w1, r1) ->
      stored (self w1) (fst s) (snd s) = stored (self w) (fst s) (snd s)).
    { intros w1 r1 Hb.
      apply (body_cases Xts Xtr Xvs Xvr y_train y_val learner val_size tp fp)
        in Hb.
      destruct Hb as [[Hw _] | [ev [_ [_ Hb]]]]; [now subst |].
      destruct Hb as [[e [_ [_ Hself]]] | [[m [_ [_ [_ Hself]]]] |
                      [m [bv [_ [Hget [_ Hself]]]]]]];
        rewrite Hself; auto.
      apply stored_update_other; auto.
      intros Heq. apply Hs. left. destruct s, s0. simpl in *. congruence. }
    destruct H as [[w1 [[] [Hb Hrest]]] | [e [Hb Hr]]].
    + rewrite (IH w1 Hrest s) by (intros Hc; apply Hs; now right).
      eapply Hstep; eauto.
    + eapply Hstep; eauto.
Qed.

End LoopFrame.

(** X3: [fit] writes only the slots of the label columns it is given: the
    classifiers stored for any other label are the same before and after,
    whether [fit] returns or fails. *)
Theorem fit_leaves_other_labels_alone E (w : World E)
    X y learner val_size tp fp idx col mv :
  ~ In col (columns y) ->
  stored (self (fst (fit E X y learner val_size tp fp idx w))) col mv
  = stored (self w) col mv.
Proof.
  intros Hcol.
  set (run := fit E X y learner val_size tp fp idx w).
  destruct (fit_cases E X y learner val_size tp fp idx w (fst run) (snd run)
              (surjective_pairing run))
    as [[Hw _] | [Xts [Xtr [Xvs [Xvr [yt [yv [_ [_ Hloop]]]]]]]]].
  - now rewrite Hw.
  - apply (loop_frame _ _ _ _ _ _ _ _ _ _ _ _ _ _ Hloop (col, mv)).
    intros Hin. apply in_slots_of in Hin. simpl in Hin. tauto.
Qed.

Lemma fit_leaves_other_labels_alone_witness :
  let E := Sample.externals [] in
  let fitted := fst (fit E (Sample.features 4) (Sample.labels 4) "xgboost" (1 # 4)
                       None None [2; 0; 3; 1]%nat (Sample.fresh [])) in
  let again := fst (fit E (Sample.features 4) (Sample.frame 4 ["scores"])
                      "lightgbm" 0 None None [2; 0; 3; 1]%nat fitted) in
  ~ In "concedes" (columns (Sample.frame 4 ["scores"])) /\
  stored (self again) "concedes" "standard" = stored (self fitted) "concedes" "standard".
Proof.
  intros E fitted again.
  assert (Hn : ~ In "concedes" (columns (Sample.frame 4 ["scores"]))).
  { simpl. intros [H | []]. discriminate H. }
  split; [exact Hn |].
  exact (fit_leaves_other_labels_alone E fitted (Sample.features 4)
           (Sample.frame 4 ["scores"]) "lightgbm" 0 None None [2; 0; 3; 1]%nat
           "concedes" "standard" Hn).
Defined.

(** ** The split without validation *)

(** *** Binary64 facts behind the cut *)

Lemma digits2_size p : digits2_pos p = Pos.size p.
Proof. induction p; simpl; congruence. Qed.

Lemma digits2_iter_xO k p :
  digits2_pos (Pos.iter xO p k) = (digits2_pos p + k)%positive.
Proof.
  induction k using Pos.peano_ind.
  - simpl. lia.
  - rewrite Pos.iter_succ. simpl. rewrite IHk. lia.
Qed.

(** A 53-bit significand with an exponent in range is kept by rounding. *)
Lemma round_canonical s m e :
  digits2_pos m = 53%positive -> (-1074 <= e <= 971)%Z ->
  binary_round_aux 53 1024 s (Zpos m) e loc_Exact = S754_finite s m e.
Proof.
  intros Hd He.
  unfold binary_round_aux, shr_fexp, Zdigits2, fexp, emin. rewrite Hd.
  replace (Z.max (53 + e - 53) (3 - 1024 - 53) - e)%Z with 0%Z by lia.
  cbn [shr shr_record_of_loc shr_m loc_of_shr_record shr_r shr_s round_nearest_even].
  rewrite Hd.
  replace (Z.max (53 + e - 53) (3 - 1024 - 53) - e)%Z with 0%Z by lia.
  cbn [shr shr_record_of_loc shr_m].
  replace (e <=? 1024 - 53)%Z with true by (symmetry; apply Z.leb_le; lia).
  reflexivity.
Qed.

(** The product of a float with 53 significant bits and [1.0] is the float. *)
Lemma fmul_one s m e :
  digits2_pos m = 53%positive -> (-1022 <= e <= 971)%Z ->
  fmul (S754_finite s m e) float_one = S754_finite s m e.
Proof.
  intros Hd He. unfold fmul, float_one, SFmul.
  rewrite Pos.mul_comm.
  replace (xorb s false) with s by (destruct s; reflexivity).
  cbn [Pos.mul].
  unfold binary_round_aux, shr_fexp, Zdigits2, fexp, emin.
  cbn [digits2_pos]. rewrite Hd.
  match goal with |- context [Z.max ?a ?b] =>
    replace (Z.max a b - (e + -52))%Z with 52%Z
  end.
  2:{ cbn [Pos.succ]. lia. }
  cbn [shr shr_record_of_loc iter_pos shr_1 orb shr_m loc_of_shr_record round_nearest_even].
  rewrite Hd.
  replace (Z.max (53 + (e + -52 + 52) - 53) (3 - 1024 - 53) - (e + -52 + 52))%Z
    with 0%Z by lia.
  cbn [shr shr_record_of_loc shr_m].
  replace (e + -52 + 52 <=? 1024 - 53)%Z with true by (symmetry; apply Z.leb_le; lia).
  f_equal. lia.
Qed.

(** An integer below [2^53] is a float: [float(z)] has 53 significant bits and
    the value [z]. *)
Lemma float_of_int_exact p :
  (Zpos p < 2 ^ 53)%Z ->
  exists m e,
    float_of_int (Zpos p) = S754_finite false m e /\
    digits2_pos m = 53%positive /\ (-52 <= e <= 0)%Z /\
    math_floor (S754_finite false m e) = Zpos p.
Proof.
  intros Hp.
  pose proof (Pos.size_le p) as Hsize.
  assert (Hd : (Zpos (digits2_pos p) <= 53)%Z).
  { rewrite digits2_size.
    destruct (Z.le_gt_cases (Zpos (Pos.size p)) 53) as [H | H]; [exact H | exfalso].
    assert (H2 : (2 ^ 54 <= 2 ^ Zpos (Pos.size p))%Z)
      by (apply Z.pow_le_mono_r; lia).
    assert (H3 : (Zpos (2 ^ Pos.size p) <= Zpos p~0)%Z) by exact Hsize.
    rewrite Pos2Z.inj_pow in H3. change (Zpos p~0) with (2 * Zpos p)%Z in H3.
    change (Z.pos 2) with 2%Z in H3. lia. }
  unfold float_of_int, binary_normalize, binary_round, shl_align, fexp, emin.
  destruct (Z.eq_dec (Zpos (digits2_pos p)) 53) as [Heq | Hne].
  - rewrite Heq. cbn [Z.add Z.sub Z.max Z.compare Pos.compare Pos.compare_cont
                       Z.opp Z.pos_sub Pos.pred_double].
    change ((Z.max (53 + 0 - 53) (3 - 1024 - 53) - 0)%Z) with 0%Z. cbv iota beta.
    assert (Hd53 : digits2_pos p = 53%positive) by congruence.
    exists p, 0%Z. split; [apply round_canonical; [exact Hd53 | lia] |].
    split; [exact Hd53 |]. split; [lia |]. simpl. lia.
  - remember (Zpos (digits2_pos p)) as d eqn:Ed.
    assert (Hk : exists k, (Z.max (d + 0 - 53) (3 - 1024 - 53) - 0 = Zneg k)%Z
                           /\ (Zpos k = 53 - d)%Z).
    { exists (Z.to_pos (53 - d)). split; [| lia].
      rewrite Z.max_l by lia.
      assert (Hpos : (0 < 53 - d)%Z) by lia.
      destruct (53 - d)%Z as [| q | q] eqn:Eq; lia. }
    destruct Hk as (k & Hk & Hkd). rewrite Hk.
    assert (Hmax : (Z.max (d + 0 - 53) (3 - 1024 - 53) = - Zpos k)%Z) by lia.
    rewrite Hmax.
    assert (Hdig : digits2_pos (Pos.iter xO p k) = 53%positive).
    { rewrite digits2_iter_xO. apply Pos2Z.inj. rewrite Pos2Z.inj_add. lia. }
    exists (Pos.iter xO p k), (- Zpos k)%Z.
    split; [apply round_canonical; [exact Hdig | lia] |].
    split; [exact Hdig |]. split; [lia |].
    change (- Zpos k)%Z with (Zneg k). cbn [math_floor].
    assert (Hval : Zpos (Pos.iter xO p k) = (Zpos p * Z.pow_pos 2 k)%Z).
    { clear. induction k using Pos.peano_ind.
      - simpl. lia.
      - rewrite Pos.iter_succ. change (Zpos (Pos.iter xO p k)~0) with (2 * Zpos (Pos.iter xO p k))%Z.
        rewrite IHk. rewrite !Z.pow_pos_fold. rewrite Pos2Z.inj_succ.
        rewrite Z.pow_succ_r by lia. lia. }
    rewrite Hval. apply Z.div_mul. rewrite Z.pow_pos_fold. lia.
Qed.

Lemma float_of_Q_zero v : v == 0 -> float_of_Q v = S754_zero false.
Proof.
  intros Hv. unfold float_of_Q.
  assert (H : Qnum v = 0%Z).
  { unfold Qeq in Hv. simpl in Hv. lia. }
  now rewrite H.
Qed.

Lemma train_count_zero n val_size :
  val_size == 0 -> (Z.of_nat n <= 2 ^ 53)%Z ->
  train_count n val_size = Z.of_nat n.
Proof.
  intros Hv Hn. unfold train_count. rewrite (float_of_Q_zero val_size Hv).
  change (fsub (float_of_int 1) (S754_zero false)) with float_one.
  destruct (Z.of_nat n) as [| p | p] eqn:En; [reflexivity | | lia].
  destruct (Z.eq_dec (Zpos p) (2 ^ 53)) as [Heq | Hne].
  - rewrite Heq. vm_compute. reflexivity.
  - destruct (float_of_int_exact p) as (m & e & Hf & Hd & He & Hfl); [lia |].
    rewrite Hf, (fmul_one false m e Hd) by lia. exact Hfl.
Qed.

(** X4: with [val_size = 0] the training part is the whole permutation and
    the validation part is empty: no row is left out.  The number of rows is
    at most [2^53]; a larger one need not be a float. *)
Theorem zero_split_trains_on_every_row n val_size (idx : list nat) :
  val_size == 0 ->
  List.length idx = n ->
  (Z.of_nat n <= 2 ^ 53)%Z ->
  train_idx idx n val_size = idx /\ val_idx idx n val_size = [].
Proof.
  intros Hz Hlen Hn. unfold train_idx, val_idx, slice_to, slice_from.
  rewrite (train_count_zero n val_size Hz Hn).
  rewrite !slice_bound_nonneg by lia. rewrite Hlen. split.
  - replace (Nat.min n (Z.to_nat (Z.of_nat n))) with (List.length idx) by lia.
    apply firstn_all.
  - apply skipn_all2. lia.
Qed.

Lemma zero_split_trains_on_every_row_witness :
  0 == 0 /\
  train_idx [2; 0; 3; 1]%nat 4 0 = [2; 0; 3; 1]%nat /\
  val_idx [2; 0; 3; 1]%nat 4 0 = [].
Proof.
  assert (Hz : 0 == 0) by reflexivity.
  split; [exact Hz |].
  apply (zero_split_trains_on_every_row 4 0 [2; 0; 3; 1]%nat Hz eq_refl).
  vm_compute. discriminate.
Defined.

(** ** Failures at the first slot *)

Lemma get_absent {V} (d : dict V) k : ~ In k (keys d) -> get d k = None.
Proof.
  unfold keys. induction d as [| [k' v] d IH]; simpl; auto.
  intros H. destruct (String.eqb k k') eqn:Hk.
  - apply String.eqb_eq in Hk. subst. tauto.
  - apply IH. tauto.
Qed.

Lemma eval_set_for_ok E val_size (X_val y_val : DataFrame (value E)) col :
  In col (columns y_val) ->
  exists es, eval_set_for val_size X_val y_val col = inr es.
Proof.
  intros Hin. unfold eval_set_for.
  destruct (negb (Qle_bool val_size 0)); [| eauto].
  destruct (getcol_ok y_val col Hin) as [s Hs]. rewrite Hs. eauto.
Qed.

(** X5: when the library of the chosen learner is not installed, [fit]
    raises [ImportError("<library> is not installed.")] at the first
    classifier; nothing is trained and nothing is stored. *)
Theorem fit_backend_not_installed E (w : World E)
    X y learner l val_size tp fp idx :
  learner_of_name learner = Some l ->
  installed E l = false ->
  constructed (self w) ->
  incl (cols_standard (self w)) (columns X) ->
  columns y <> [] ->
  Permutation idx (seq 0 (index_len X)) ->
  (index_len X <= index_len y)%nat ->
  fit E X y learner val_size tp fp idx w =
  (w, inl (ImportError (import_message l))).
Proof.
  intros Hl Hinst Hc Hincl Hy Hperm Hlen.
  destruct (fit_reaches_loop E X y learner val_size tp fp idx w Hc Hincl)
    as [Xts [Xtr [Xvs [Xvr [yt [yv [Hyt [Hyv Hfit]]]]]]]].
  { intros i Hi. pose proof (permutation_positions _ _ _ Hperm Hi). lia. }
  rewrite Hfit. destruct (columns y) as [| c cols] eqn:Hcols; [congruence |].
  rewrite slots_of_cons. simpl for_each. unfold bind at 1.
  rewrite fit_body_run. simpl fst. simpl snd.
  destruct (eval_set_for_ok E val_size (pick "standard" Xvs Xvr) yv c)
    as [es Hes]; [rewrite Hyv; now left |].
  destruct (getcol_ok yt c) as [yc Hyc]; [rewrite Hyt; now left |].
  rewrite Hes, Hl, Hyc. unfold train_and_store. now rewrite Hinst.
Qed.

Lemma fit_backend_not_installed_witness :
  let E := with_installed (Sample.externals []) true true false in
  let w := mkWorld (__init__ E (Some ["time"]) (Some ["result_onehot"]) 3) [] in
  installed E LightGBM = false /\
  fit E (Sample.features 4) (Sample.labels 4) "lightgbm" (1 # 4) None None
      [2; 0; 3; 1]%nat w
  = (w, inl (ImportError "lightgbm is not installed.")).
Proof.
  intros E w. split; [reflexivity |].
  apply (fit_backend_not_installed E w (Sample.features 4) (Sample.labels 4)
           "lightgbm" LightGBM (1 # 4) None None [2; 0; 3; 1]%nat).
  - reflexivity.
  - reflexivity.
  - split; reflexivity.
  - vm_compute. tauto.
  - discriminate.
  - simpl. apply Permutation_sym.
    apply (Permutation_cons_app [2%nat] [3; 1]%nat 0%nat).
    apply (Permutation_cons_app [2; 3]%nat [] 1%nat).
    apply (Permutation_cons_app [] [3]%nat 2%nat).
    apply Permutation_refl.
  - simpl. lia.
Defined.

(** X6: a label column other than ["scores"] and ["concedes"] has no entry
    in [__models].  [fit] first trains a classifier for it and only then
    fails with [KeyError(<column>)]: one backend call is made and its
    result is dropped, the instance is unchanged. *)
Theorem fit_unknown_label_column E (w : World E)
    X y learner l val_size tp fp idx c rest :
  learner_of_name learner = Some l ->
  installed E l = true ->
  constructed (self w) ->
  incl (cols_standard (self w)) (columns X) ->
  columns y = c :: rest ->
  c <> "scores" -> c <> "concedes" ->
  Permutation idx (seq 0 (index_len X)) ->
  (index_len X <= index_len y)%nat ->
  (forall l tp X y fp, exists m, classifier_fit E l tp X y fp = inr m) ->
  exists ev m,
    training ev = Some (inr m) /\
    fit E X y learner val_size tp fp idx w =
    (mkWorld (self w) (trace w ++ [ev]), inl (KeyError c)).
Proof.
  intros Hl Hinst Hc Hincl Hcols Hs Hco Hperm Hlen Htrains.
  destruct (fit_reaches_loop E X y learner val_size tp fp idx w Hc Hincl)
    as [Xts [Xtr [Xvs [Xvr [yt [yv [Hyt [Hyv Hfit]]]]]]]].
  { intros i Hi. pose proof (permutation_positions _ _ _ Hperm Hi). lia. }
  rewrite Hfit, Hcols, slots_of_cons. simpl for_each. unfold bind at 1.
  rewrite fit_body_run. simpl fst. simpl snd.
  destruct (eval_set_for_ok E val_size (pick "standard" Xvs Xvr) yv c)
    as [es Hes]; [rewrite Hyv, Hcols; now left |].
  destruct (getcol_ok yt c) as [yc Hyc]; [rewrite Hyt, Hcols; now left |].
  rewrite Hes, Hl, Hyc. unfold train_and_store. rewrite Hinst.
  simpl negb. cbv iota zeta.
  destruct (Htrains l (passed_tree_params l tp) (pick "standard" Xts Xtr) yc
              (passed_fit_params l (pick "standard" Xts Xtr) fp es)) as [m Hm].
  rewrite Hm.
  assert (Hnone : get (__models (self w)) c = None).
  { apply get_absent. destruct Hc as [_ Hk]. rewrite Hk.
    simpl. intros [H | [H | []]]; congruence. }
  rewrite Hnone.
  eexists. exists m. split; [| reflexivity]. simpl. now rewrite Hm.
Qed.

Lemma fit_unknown_label_column_witness :
  let E := Sample.externals [] in
  let w := Sample.fresh [] in
  exists ev,
    fit E (Sample.features 4) (Sample.frame 4 ["goal"]) "xgboost" (1 # 4)
        None None [2; 0; 3; 1]%nat w
    = (mkWorld (self w) (trace w ++ [ev]), inl (KeyError "goal")).
Proof.
  intros E w.
  destruct (fit_unknown_label_column E w (Sample.features 4)
              (Sample.frame 4 ["goal"]) "xgboost" XGBoost (1 # 4) None None
              [2; 0; 3; 1]%nat "goal" [])
    as [ev [m [_ H]]].
  - reflexivity.
  - reflexivity.
  - split; reflexivity.
  - vm_compute. tauto.
  - reflexivity.
  - discriminate.
  - discriminate.
  - simpl. apply Permutation_sym.
    apply (Permutation_cons_app [2%nat] [3; 1]%nat 0%nat).
    apply (Permutation_cons_app [2; 3]%nat [] 1%nat).
    apply (Permutation_cons_app [] [3]%nat 2%nat).
    apply Permutation_refl.
  - simpl. lia.
  - intros l tp X y fp. exists (name y). reflexivity.
  - exists ev. exact H.
Defined.

(** ** The frames cut before the loop *)

Lemma select_columns {V} (X X' : DataFrame V) cols :
  select X cols = inr X' ->
  incl (columns X') cols /\ index_len X' = index_len X.
Proof.
  unfold select. destruct (first_missing cols (columns X)); [discriminate |].
  intros H; inversion H; subst. split; [| reflexivity].
  unfold columns. simpl. intros c Hc.
  apply in_map_iff in Hc. destruct Hc as [s [Hname Hin]].
  apply in_flat_map in Hin. destruct Hin as [c' [Hc' Hs]].
  apply filter_In in Hs. destruct Hs as [_ Heq].
  apply String.eqb_eq in Heq. congruence.
Qed.

Lemma iloc_len {V} (X X' : DataFrame V) idx :
  iloc X idx = inr X' -> index_len X' = List.length idx.
Proof.
  unfold iloc. destruct (forallb _ idx); [| discriminate].
  intros H; inversion H; subst. reflexivity.
Qed.

Lemma getcol_name {V} (X : DataFrame V) c s : getcol X c = inr s -> name s = c.
Proof.
  unfold getcol. destruct (find _ (series X)) as [s' |] eqn:Hf; [| discriminate].
  intros H; inversion H; subst. apply find_some in Hf.
  now apply String.eqb_eq.
Qed.

(** [fit_cases], with the frames the loop works on made explicit. *)
Lemma fit_cases_frames E X y learner val_size tp fp idx (w w' : World E) r :
  fit E X y learner val_size tp fp idx w = (w', r) ->
  (w' = w /\ exists e, r = inl e) \/
  (exists X_train Xts Xtr y_train X_val Xvs Xvr y_val,
      iloc X (train_idx idx (index_len X) val_size) = inr X_train /\
      select X_train (cols_standard (self w)) = inr Xts /\
      select X_train (cols_resultfree (self w)) = inr Xtr /\
      iloc y (train_idx idx (index_len X) val_size) = inr y_train /\
      iloc X (val_idx idx (index_len X) val_size) = inr X_val /\
      select X_val (cols_standard (self w)) = inr Xvs /\
      select X_val (cols_resultfree (self w)) = inr Xvr /\
      iloc y (val_idx idx (index_len X) val_size) = inr y_val /\
      for_each (slots_of (columns y))
        (fun s => fit_body E Xts Xtr Xvs Xvr y_train y_val learner val_size tp fp
                    (fst s) (snd s)) w = (w', r)).
Proof.
  unfold fit. cbv zeta. unfold bind at 1, get_self at 1.
  fold (cols_standard (self w)). fold (cols_resultfree (self w)).
  destruct (negb (issubset _ (columns X))).
  { intros H; inversion H; subst. left. eauto. }
  repeat (rewrite bind_lift; cbv beta iota;
          try match goal with
          | |- match ?r with _ => _ end = _ -> _ =>
              let e := fresh "e" in
              let a := fresh "a" in
              let Ha := fresh "Ha" in
              destruct r as [e | a] eqn:Ha;
              [intros H; inversion H; subst; left; eauto |]
          end).
  lazymatch goal with
  | |- context [fit_body E ?a ?b ?c ?d ?yt ?yv] =>
      intros H; right;
      match goal with
      | Ht : iloc X (train_idx _ _ _) = inr ?xt,
        Hv : iloc X (val_idx _ _ _) = inr ?xv |- _ =>
          exists xt, a, b, yt, xv, c, d, yv
      end;
      repeat (split; [first [assumption | reflexivity] |]);
      rewrite <- H; symmetry;
      exact (for_each_nested E _ _ (columns y) versions
               (fit_body E a b c d yt yv learner val_size tp fp) w)
  end.
Qed.

Section LoopProvenance.
Context {E : Externals}.
Variables Xts Xtr Xvs Xvr y_train y_val : DataFrame (value E).
Variable learner : string.
Variable val_size : Q.
Variables tp fp : option (dict (pyval (value E))).

Lemma body_success s (w w' : World E) :
  fit_body E Xts Xtr Xvs Xvr y_train y_val learner val_size tp fp
    (fst s) (snd s) w = (w', inr tt) ->
  exists l yc es m by_version,
    learner_of_name learner = Some l /\
    eval_set_for val_size (pick (snd s) Xvs Xvr) y_val (fst s) = inr es /\
    getcol y_train (fst s) = inr yc /\
    classifier_fit E l (passed_tree_params l tp) (pick (snd s) Xts Xtr) yc
      (passed_fit_params l (pick (snd s) Xts Xtr) fp es) = inr m /\
    get (__models (self w)) (fst s) = Some by_version /\
    self w' = with_models (self w)
                (set (__models (self w)) (fst s) (set by_version (snd s) m)).
Proof.
  rewrite fit_body_run.
  destruct (eval_set_for val_size _ y_val (fst s)) as [e | es] eqn:Hes;
    [discriminate |].
  destruct (learner_of_name learner) as [l |] eqn:Hl; [| discriminate].
  destruct (getcol y_train (fst s)) as [e | yc] eqn:Hyc; [discriminate |].
  unfold train_and_store.
  destruct (negb (installed E l)); [discriminate |]. cbv zeta.
  destruct (classifier_fit E l _ _ yc _) as [e | m] eqn:Hfit; [discriminate |].
  destruct (get (__models (self w)) (fst s)) as [bv |] eqn:Hget; [| discriminate].
  intros H; inversion H; subst.
  exists l, yc, es, m, bv. auto 10.
Qed.

Lemma loop_provenance slots (w w' : World E) :
  NoDup slots ->
  for_each slots
    (fun s => fit_body E Xts Xtr Xvs Xvr y_train y_val learner val_size tp fp
                (fst s) (snd s)) w = (w', inr tt) ->
  forall s, In s slots ->
    exists l yc es m,
      learner_of_name learner = Some l /\
      eval_set_for val_size (pick (snd s) Xvs Xvr) y_val (fst s) = inr es /\
      getcol y_train (fst s) = inr yc /\
      classifier_fit E l (passed_tree_params l tp) (pick (snd s) Xts Xtr) yc
        (passed_fit_params l (pick (snd s) Xts Xtr) fp es) = inr m /\
      stored (self w') (fst s) (snd s) = Some m.
Proof.
  intros Hnd. revert w.
  induction Hnd as [| s0 slots Hnotin Hnd IH]; intros w; simpl.
  - intros _ s [].
  - intros H s Hs. apply bind_inr_inv in H.
    destruct H as [w1 [[] [Hb Hrest]]].
    destruct Hs as [Heq | Hin]; [subst s | eauto].
    destruct (body_success s0 w w1 Hb)
      as [l [yc [es [m [bv [Hl [Hes [Hyc [Hfit [Hget Hself]]]]]]]]]].
    exists l, yc, es, m. repeat (split; [assumption |]).
    rewrite (loop_frame Xts Xtr Xvs Xvr y_train y_val learner val_size tp fp
               slots w1 w' (inr tt) Hrest s0 Hnotin).
    rewrite Hself. apply stored_update_same.
Qed.

End LoopProvenance.

Lemma select_pick {V} (X Xs Xr : DataFrame V) mv cs cr :
  select X cs = inr Xs -> select X cr = inr Xr ->
  select X (pick mv cs cr) = inr (pick mv Xs Xr).
Proof. unfold pick. destruct (String.eqb mv "standard"); auto. Qed.

(** Each slot written by a successful [fit] holds what was trained for it. *)
Lemma fit_provenance E (w w' : World E)
    X y learner val_size tp fp idx :
  NoDup (columns y) ->
  fit E X y learner val_size tp fp idx w = (w', inr tt) ->
  forall col mv, In col (columns y) -> In mv versions ->
    exists m,
      stored (self w') col mv = Some m /\
      trained_from (self w) X y learner val_size tp fp idx col mv m.
Proof.
  intros Hnd Hfit col mv Hcol Hmv. apply fit_cases_frames in Hfit.
  destruct Hfit as [[_ [e He]] |
    [Xt [Xts [Xtr [yt [Xv [Xvs [Xvr [yv
      [HXt [HXts [HXtr [Hyt [HXv [HXvs [HXvr [Hyv Hloop]]]]]]]]]]]]]]]]];
    [discriminate |].
  destruct (loop_provenance Xts Xtr Xvs Xvr yt yv learner val_size tp fp
              (slots_of (columns y)) w w' (slots_of_NoDup _ Hnd) Hloop (col, mv))
    as [l [yc [es [m [Hl [Hes [Hyc [Htrain Hst]]]]]]]].
  { apply in_slots_of. simpl. auto. }
  simpl in Hes, Hyc, Htrain, Hst.
  exists m. split; [exact Hst |].
  exists l, Xt, (pick mv Xts Xtr), yt, yc, Xv, (pick mv Xvs Xvr), yv, es.
  repeat (split; [first [assumption | now apply select_pick] |]).
  exact Htrain.
Qed.

(** * [fit], slot by slot *)

Section LoopTrace.
Context {E : Externals}.
Variables Xts Xtr Xvs Xvr y_train y_val : DataFrame (value E).
Variable learner : string.
Variable val_size : Q.
Variables tp fp : option (dict (pyval (value E))).

Let body (s : string * string) : M E unit :=
  fit_body E Xts Xtr Xvs Xvr y_train y_val learner val_size tp fp (fst s) (snd s).

Let trains := slot_call Xts Xtr Xvs Xvr y_train y_val learner val_size tp fp.

(** One round of the loop either stops before the backend is called, or
    records the training call of its slot. *)
Lemma body_trace s (w w' : World E) r :
  body s w = (w', r) ->
  (w' = w /\ exists e, r = inl e) \/
  (exists ev,
      trace w' = (trace w ++ [ev])%list /\ trains s ev /\
      ((exists e, training ev = Some (inl e) /\ r = inl e /\ self w' = self w) \/
       (exists m, training ev = Some (inr m) /\
                  get (__models (self w)) (fst s) = None /\
                  r = inl (KeyError (fst s)) /\ self w' = self w) \/
       (exists m by_version,
           training ev = Some (inr m) /\
           get (__models (self w)) (fst s) = Some by_version /\
           r = inr tt /\
           self w' = with_models (self w)
                       (set (__models (self w)) (fst s)
                          (set by_version (snd s) m))))).
Proof.
  unfold body. rewrite fit_body_run.
  destruct (eval_set_for val_size _ y_val (fst s)) as [e | es] eqn:Hes.
  { intros H; inversion H; subst. left. eauto. }
  destruct (learner_of_name learner) as [l |] eqn:Hl.
  2: { intros H; inversion H; subst. left. eauto. }
  destruct (getcol y_train (fst s)) as [e | yc] eqn:Hyc.
  { intros H; inversion H; subst. left. eauto. }
  unfold train_and_store.
  destruct (negb (installed E l)).
  { intros H; inversion H; subst. left. eauto. }
  cbv zeta.
  set (ev := FitCall l _ _ yc _).
  assert (Hcall : trains s ev) by (exists l, yc, es; auto).
  destruct (classifier_fit E l _ _ yc _) as [e | m] eqn:Hfit.
  - intros H; inversion H; subst. right. exists ev.
    split; [reflexivity | split; [exact Hcall |]].
    left. exists e. simpl. rewrite Hfit. auto.
  - destruct (get (__models (self w)) (fst s)) as [by_version |] eqn:Hget.
    + intros H; inversion H; subst. right. exists ev.
      split; [reflexivity | split; [exact Hcall |]].
      right. right. exists m, by_version. simpl. rewrite Hfit. auto.
    + intros H; inversion H; subst. right. exists ev.
      split; [reflexivity | split; [exact Hcall |]].
      right. left. exists m. simpl. rewrite Hfit. auto.
Qed.

(** The loop visits the slots in order and records one training call for
    each slot it gets through: the calls are those of a prefix [done] of the
    slots, of all of them when the loop ends normally.  A training that
    fails ends the loop with its exception, no training follows it, and
    what a training returned is stored in its slot at the end of the loop
    as long as the slots are distinct and their labels are keys of
    [__models]. *)
Lemma loop_trace slots (w w' : World E) r :
  for_each slots body w = (w', r) ->
  exists done rest new,
    slots = (done ++ rest)%list /\
    trace w' = (trace w ++ new)%list /\
    Forall2 trains done new /\
    (r = inr tt -> rest = [] /\
                   Forall (fun ev => exists m, training ev = Some (inr m)) new) /\
    (forall ev e, In ev new -> training ev = Some (inl e) -> r = inl e) /\
    (NoDup slots ->
     (forall s, In s slots -> In (fst s) (keys (__models (self w)))) ->
     Forall2 (fun s ev => forall m, training ev = Some (inr m) ->
                                    stored (self w') (fst s) (snd s) = Some m)
             done new).
Proof.
  revert w. induction slots as [| s slots IH]; intros w; simpl.
  - intros H; inversion H; subst. exists [], [], [].
    split; [reflexivity |]. split; [now rewrite app_nil_r |].
    split; [constructor |].
    split; [intros _; split; [reflexivity | constructor] |].
    split; [intros ev e [] | intros _ _; constructor].
  - intros H. apply bind_cases in H.
    destruct H as [[w1 [[] [Hb Hrest]]] | [e [Hb Hr]]].
    + destruct (IH w1 Hrest)
        as [done [rest [new [Hsl [Htr [Hcalls [Hok [Hfail Hst]]]]]]]].
      pose proof Hb as Hb0.
      apply body_trace in Hb.
      destruct Hb as [[Hw [e He]] | [ev [Htr1 [Hcall Hb]]]]; [discriminate |].
      destruct Hb as [[e [_ [He _]]] | [[m [_ [_ [He _]]]] |
                      [m [by_version [Htrain [Hget [_ Hself]]]]]]];
        try discriminate.
      exists (s :: done), rest, (ev :: new).
      split; [simpl; now rewrite Hsl |].
      split; [rewrite Htr, Htr1; now rewrite <- app_assoc |].
      split; [constructor; assumption |].
      split; [| split].
      * intros Hr'. destruct (Hok Hr') as [Hrest' Hall]. split; [exact Hrest' |].
        constructor; eauto.
      * intros ev' e [Heq | Hin] Ht; [subst ev'; congruence | eauto].
      * intros Hnd Hkeys. apply NoDup_cons_iff in Hnd. destruct Hnd as [Hnotin Hnd'].
        assert (Hk1 : keys (__models (self w1)) = keys (__models (self w))).
        { rewrite Hself. simpl. apply keys_set_present. apply Hkeys. now left. }
        constructor.
        -- intros m' Hm'.
           rewrite (loop_frame Xts Xtr Xvs Xvr y_train y_val learner val_size
                      tp fp slots w1 w' r Hrest s Hnotin).
           rewrite Hself.
           replace m' with m by congruence. apply stored_update_same.
        -- apply Hst; [exact Hnd' |].
           intros s' Hs'. rewrite Hk1. apply Hkeys. now right.
    + subst r. apply body_trace in Hb.
      destruct Hb as [[Hw _] | [ev [Htr1 [Hcall Hb]]]].
      * subst w'. exists [], (s :: slots), [].
        split; [reflexivity |]. split; [now rewrite app_nil_r |].
        split; [constructor |].
        split; [discriminate |].
        split; [intros ev e' [] | intros _ _; constructor].
      * exists [s], slots, [ev].
        split; [reflexivity |]. split; [exact Htr1 |].
        split; [constructor; [exact Hcall | constructor] |].
        split; [discriminate |]. split.
        -- intros ev' e' [Heq | []] Ht. subst ev'.
           destruct Hb as [[e'' [Ht' [He _]]] | [[m [Ht' _]] |
                           [m [bv [_ [_ [He _]]]]]]]; try discriminate;
             congruence.
        -- intros _ Hkeys. constructor; [| constructor].
           intros m Hm.
           destruct Hb as [[e'' [Ht' _]] | [[m' [_ [Hnone _]]] |
                           [m' [bv [_ [_ [He _]]]]]]]; try discriminate.
           ++ congruence.
           ++ exfalso.
              destruct (get_in_keys (__models (self w)) (fst s)) as [v Hv].
              { apply Hkeys. now left. }
              congruence.
Qed.

End LoopTrace.

(** The call recorded for a slot is the call [fit] owes to it. *)
Lemma slot_call_for E (me : HybridVAEP E) X y learner val_size tp fp idx
    Xt Xts Xtr yt Xv Xvs Xvr yv s ev :
  iloc X (train_idx idx (index_len X) val_size) = inr Xt ->
  select Xt (cols_standard me) = inr Xts ->
  select Xt (cols_resultfree me) = inr Xtr ->
  iloc y (train_idx idx (index_len X) val_size) = inr yt ->
  iloc X (val_idx idx (index_len X) val_size) = inr Xv ->
  select Xv (cols_standard me) = inr Xvs ->
  select Xv (cols_resultfree me) = inr Xvr ->
  iloc y (val_idx idx (index_len X) val_size) = inr yv ->
  slot_call Xts Xtr Xvs Xvr yt yv learner val_size tp fp s ev ->
  call_for me X y learner val_size tp fp idx (fst s) (snd s) ev.
Proof.
  intros HXt HXts HXtr Hyt HXv HXvs HXvr Hyv [l [yc [es [Hl [Hes [Hyc Hev]]]]]].
  exists l, Xt, (pick (snd s) Xts Xtr), yt, yc,
    (passed_fit_params l (pick (snd s) Xts Xtr) fp es).
  split; [exact Hl |]. split; [exact HXt |].
  split; [now apply select_pick |]. split; [exact Hyt |].
  split; [exact Hyc |]. split; [exact Hev |].
  cbv zeta. unfold eval_set_for in Hes.
  destruct (Qle_bool val_size 0); simpl in Hes.
  - inversion Hes; subst. reflexivity.
  - destruct (getcol yv (fst s)) as [e | sv] eqn:Hsv; inversion Hes; subst.
    exists Xv, (pick (snd s) Xvs Xvr), yv, sv.
    split; [exact HXv |]. split; [now apply select_pick |].
    split; [exact Hyv |]. split; [exact Hsv |].
    unfold with_validation, passed_fit_params. apply merge_val_params.
Qed.

(** [fit] as a sequence of training calls: one for each slot it gets
    through, in the order of the loop. *)
Lemma fit_trace E (w w' : World E) X y learner val_size tp fp idx r :
  fit E X y learner val_size tp fp idx w = (w', r) ->
  exists done rest new,
    slots_of (columns y) = (done ++ rest)%list /\
    trace w' = (trace w ++ new)%list /\
    Forall2 (fun s ev =>
               call_for (self w) X y learner val_size tp fp idx (fst s) (snd s) ev)
            done new /\
    (r = inr tt -> rest = [] /\
                   Forall (fun ev => exists m, training ev = Some (inr m)) new) /\
    (forall ev e, In ev new -> training ev = Some (inl e) -> r = inl e) /\
    (NoDup (columns y) ->
     incl (columns y) (keys (__models (self w))) ->
     Forall2 (fun s ev => forall m, training ev = Some (inr m) ->
                                    stored (self w') (fst s) (snd s) = Some m)
             done new).
Proof.
  intros Hfit. apply fit_cases_frames in Hfit.
  destruct Hfit as [[Hw [e He]] |
    [Xt [Xts [Xtr [yt [Xv [Xvs [Xvr [yv
      [HXt [HXts [HXtr [Hyt [HXv [HXvs [HXvr [Hyv Hloop]]]]]]]]]]]]]]]]].
  - subst. exists [], (slots_of (columns y)), [].
    split; [reflexivity |]. split; [now rewrite app_nil_r |].
    split; [constructor |].
    split; [discriminate |].
    split; [intros ev e' [] | intros _ _; constructor].
  - apply loop_trace in Hloop.
    destruct Hloop as [done [rest [new [Hsl [Htr [Hcalls [Hok [Hfail Hst]]]]]]]].
    exists done, rest, new.
    split; [exact Hsl |]. split; [exact Htr |].
    split; [| split; [exact Hok | split; [exact Hfail |]]].
    + eapply Forall2_impl; [| exact Hcalls].
      intros s ev Hc.
      exact (slot_call_for E (self w) X y learner val_size tp fp idx
               Xt Xts Xtr yt Xv Xvs Xvr yv s ev
               HXt HXts HXtr Hyt HXv HXvs HXvr Hyv Hc).
    + intros Hnd Hincl. apply Hst; [now apply slots_of_NoDup |].
      intros s Hs. apply in_slots_of in Hs. apply Hincl. tauto.
Qed.

(** Two related lists, seen from either side. *)
Lemma Forall2_in_l {A B} (R : A -> B -> Prop) l l' a :
  Forall2 R l l' -> In a l -> exists b, In b l' /\ R a b.
Proof.
  induction 1 as [| x y l l' Hxy _ IH]; intros Hin; [destruct Hin |].
  destruct Hin as [Heq | Hin].
  - subst. exists y. simpl. auto.
  - destruct (IH Hin) as [b [Hb HR]]. exists b. simpl. auto.
Qed.

Lemma Forall2_in_r {A B} (R : A -> B -> Prop) l l' b :
  Forall2 R l l' -> In b l' -> exists a, In a l /\ R a b.
Proof.
  induction 1 as [| x y l l' Hxy _ IH]; intros Hin; [destruct Hin |].
  destruct Hin as [Heq | Hin].
  - subst. exists x. simpl. auto.
  - destruct (IH Hin) as [a [Ha HR]]. exists a. simpl. auto.
Qed.

Lemma Forall2_and {A B} (R R' : A -> B -> Prop) l l' :
  Forall2 R l l' -> Forall2 R' l l' ->
  Forall2 (fun a b => R a b /\ R' a b) l l'.
Proof.
  induction 1; intros H'; inversion H'; subst; constructor; auto.
Qed.

(** ** Partial failure of [fit] *)

(** C4, as stated, fails: when the third of the four trainings fails, the
    two classifiers trained before it are in [__models] afterwards, although
    none was there before the call. *)
Lemma C4_models_kept_after_failure :
  let w := Sample.fresh ["concedes"] in
  let run := fit (Sample.externals ["concedes"]) (Sample.features 4)
               (Sample.labels 4) "xgboost" (1 # 4) None None [2; 0; 3; 1]%nat w in
  snd run = inl (ExternalError "training failed") /\
  stored (self w) "scores" "standard" = None /\
  stored (self w) "scores" "resultfree" = None /\
  stored (self (fst run)) "scores" "standard" = Some "scores" /\
  stored (self (fst run)) "scores" "resultfree" = Some "scores".
Proof. vm_compute. repeat split. Qed.

(** C4, amended: [fit] returns normally only if every training it started
    succeeded, and then every (label, feature set) slot holds the classifier
    that the training call made for this very slot returned; a training that
    fails makes [fit] fail with that same exception; and every classifier
    trained before the failure stays stored in [__models], in the slot it was
    trained for: nothing is rolled back. *)
Theorem C4_failure_is_propagated_models_are_kept E (w w' : World E)
    X y learner val_size tp fp idx r :
  NoDup (columns y) ->
  incl (columns y) (keys (__models (self w))) ->
  fit E X y learner val_size tp fp idx w = (w', r) ->
  exists new,
    trace w' = (trace w ++ new)%list /\
    (r = inr tt ->
     Forall (fun ev => exists m, training ev = Some (inr m)) new /\
     forall col mv, In col (columns y) -> In mv versions ->
       exists ev m, In ev new /\
                    call_for (self w) X y learner val_size tp fp idx col mv ev /\
                    training ev = Some (inr m) /\
                    stored (self w') col mv = Some m) /\
    (forall ev e, In ev new -> training ev = Some (inl e) -> r = inl e) /\
    (forall ev m, In ev new -> training ev = Some (inr m) ->
       exists col mv, In col (columns y) /\ In mv versions /\
                      call_for (self w) X y learner val_size tp fp idx col mv ev /\
                      stored (self w') col mv = Some m).
Proof.
  intros Hnd Hincl Hfit.
  destruct (fit_trace E w w' X y learner val_size tp fp idx r Hfit)
    as [done [rest [new [Hsl [Htr [Hcalls [Hok [Hfail Hst]]]]]]]].
  pose proof (Forall2_and _ _ _ _ Hcalls (Hst Hnd Hincl)) as Hboth.
  exists new. split; [exact Htr |]. split; [| split; [exact Hfail |]].
  - intros Hr. destruct (Hok Hr) as [Hrest Hall]. split; [exact Hall |].
    intros col mv Hcol Hmv.
    assert (Hin : In (col, mv) done).
    { subst rest. rewrite app_nil_r in Hsl. rewrite <- Hsl.
      apply in_slots_of. simpl. auto. }
    destruct (Forall2_in_l _ _ _ _ Hboth Hin) as [ev [Hev [Hcall Hstored]]].
    simpl in Hcall, Hstored.
    destruct (proj1 (Forall_forall _ _) Hall ev Hev) as [m Hm].
    exists ev, m. auto.
  - intros ev m Hev Hm.
    destruct (Forall2_in_r _ _ _ _ Hboth Hev) as [s [Hs [Hcall Hstored]]].
    assert (Hin : In s (slots_of (columns y))).
    { rewrite Hsl. apply in_or_app. now left. }
    apply in_slots_of in Hin.
    exists (fst s), (snd s). split; [tauto |]. split; [tauto |]. auto.
Qed.

Lemma C4_witness :
  let w := Sample.fresh ["concedes"] in
  let run := fit (Sample.externals ["concedes"]) (Sample.features 4)
               (Sample.labels 4) "xgboost" (1 # 4) None None [2; 0; 3; 1]%nat w in
  NoDup (columns (Sample.labels 4)) /\
  incl (columns (Sample.labels 4)) (keys (__models (self w))) /\
  exists new,
    trace (fst run) = (trace w ++ new)%list /\
    (forall ev e, In ev new -> training ev = Some (inl e) -> snd run = inl e).
Proof.
  intros w run.
  assert (Hnd : NoDup (columns (Sample.labels 4))).
  { simpl. constructor.
    - intros [H | []]. discriminate H.
    - constructor; [intros [] | constructor]. }
  assert (Hincl : incl (columns (Sample.labels 4)) (keys (__models (self w)))).
  { simpl. apply incl_refl. }
  split; [exact Hnd |]. split; [exact Hincl |].
  destruct (C4_failure_is_propagated_models_are_kept
              (Sample.externals ["concedes"]) w (fst run) (Sample.features 4)
              (Sample.labels 4) "xgboost" (1 # 4) None None [2; 0; 3; 1]%nat
              (snd run) Hnd Hincl (surjective_pairing run))
    as [new [Htr [_ [Hfail _]]]].
  exists new. split; [exact Htr | exact Hfail].
Defined.

(** ** Fit-time parameters with a validation split *)

Lemma Qle_bool_positive val_size : 0 < val_size -> Qle_bool val_size 0 = false.
Proof.
  intros Hpos. destruct (Qle_bool val_size 0) eqn:Hb; auto.
  apply Qle_bool_iff in Hb. exfalso. apply (Qlt_not_le _ _ Hpos Hb).
Qed.

(** C5, as stated, fails: a caller who passes
    [fit_params = {"early_stopping_rounds": 50}] with a validation split of
    one quarter sees every backend call receive [early_stopping_rounds = 10]. *)
Lemma C5_caller_early_stopping_is_overridden :
  let fit_params := [("early_stopping_rounds", PInt 50)] in
  let run := fit (Sample.externals []) (Sample.features 4) (Sample.labels 4)
               "xgboost" (1 # 4) None (Some fit_params) [2; 0; 3; 1]%nat
               (Sample.fresh []) in
  snd run = inr tt /\
  List.length (trace (fst run)) = 4%nat /\
  Forall (fun ev => get (fit_params_of ev) "early_stopping_rounds" = Some (PInt 10))
         (trace (fst run)).
Proof. vm_compute. repeat split. repeat constructor. Qed.

(** C5, amended: with a positive validation split and caller-supplied
    [fit_params], every backend call receives [early_stopping_rounds = 10]
    and, under [eval_set], the evaluation set built by [fit] for the slot of
    the call (the validation rows of [X] restricted to the columns of the
    feature set, with the validation rows of the label column), whatever the
    caller supplied for these two keys; every other key is looked up in the
    caller's dictionary alone, so the backend's default fit-time parameters
    play no part. *)
Theorem C5_validation_parameters_take_precedence E (w w' : World E)
    X y learner val_size tp params idx r :
  0 < val_size ->
  fit E X y learner val_size tp (Some params) idx w = (w', r) ->
  exists new,
    trace w' = (trace w ++ new)%list /\
    Forall (fun ev =>
              get (fit_params_of ev) "early_stopping_rounds" = Some (PInt 10) /\
              (exists col mv X_val X_val_cols y_val y_val_col,
                  In col (columns y) /\ In mv versions /\
                  call_for (self w) X y learner val_size tp (Some params) idx
                    col mv ev /\
                  iloc X (val_idx idx (index_len X) val_size) = inr X_val /\
                  select X_val (pick mv (cols_standard (self w))
                                        (cols_resultfree (self w)))
                  = inr X_val_cols /\
                  iloc y (val_idx idx (index_len X) val_size) = inr y_val /\
                  getcol y_val col = inr y_val_col /\
                  get (fit_params_of ev) "eval_set"
                  = Some (PEvalSet [(X_val_cols, y_val_col)])) /\
              forall k, k <> "early_stopping_rounds" -> k <> "eval_set" ->
                        get (fit_params_of ev) k = get params k)
           new.
Proof.
  intros Hpos Hfit.
  destruct (fit_trace E w w' X y learner val_size tp (Some params) idx r Hfit)
    as [done [rest [new [Hsl [Htr [Hcalls _]]]]]].
  exists new. split; [exact Htr |].
  apply Forall_forall. intros ev Hev.
  destruct (Forall2_in_r _ _ _ _ Hcalls Hev) as [s [Hs Hcall]].
  assert (Hin : In s (slots_of (columns y))).
  { rewrite Hsl. apply in_or_app. now left. }
  apply in_slots_of in Hin.
  pose proof Hcall as Hcall0.
  destruct Hcall as [l [Xt [Xc [yt [yc [fp' [_ [_ [_ [_ [_ [Hev' Hfp]]]]]]]]]]]].
  cbv zeta in Hfp. rewrite (Qle_bool_positive val_size Hpos) in Hfp.
  destruct Hfp as [Xv [Xvc [yv [yvc [HXv [HXvc [Hyv [Hyvc [H1 [H2 H3]]]]]]]]]].
  subst ev. simpl.
  split; [exact H1 |]. split; [| exact H3].
  exists (fst s), (snd s), Xv, Xvc, yv, yvc.
  split; [tauto |]. split; [tauto |]. auto 10.
Qed.

Lemma C5_witness :
  let fit_params := [("early_stopping_rounds", PInt 50); ("verbose", PBool false)] in
  let w := Sample.fresh [] in
  let run := fit (Sample.externals []) (Sample.features 4) (Sample.labels 4)
               "lightgbm" (1 # 4) None (Some fit_params) [2; 0; 3; 1]%nat w in
  0 < 1 # 4 /\
  exists new,
    trace (fst run) = (trace w ++ new)%list /\
    Forall (fun ev =>
              get (fit_params_of ev) "early_stopping_rounds" = Some (PInt 10) /\
              get (fit_params_of ev) "verbose" = Some (PBool false) /\
              get (fit_params_of ev) "eval_metric" = None)
           new.
Proof.
  intros fit_params w run.
  assert (Hpos : 0 < 1 # 4) by reflexivity.
  split; [exact Hpos |].
  destruct (C5_validation_parameters_take_precedence
              (Sample.externals []) w (fst run) (Sample.features 4)
              (Sample.labels 4) "lightgbm" (1 # 4) None fit_params
              [2; 0; 3; 1]%nat (snd run) Hpos (surjective_pairing run))
    as [new [Htr Hall]].
  exists new. split; [exact Htr |].
  eapply Forall_impl; [| exact Hall].
  intros ev [H1 [_ H3]]. split; [exact H1 |].
  split; rewrite H3; try reflexivity; discriminate.
Defined.

(** ** How many classifiers are trained, and for which slots *)

Lemma slots_of_length cols :
  List.length (slots_of cols) = (2 * List.length cols)%nat.
Proof. unfold slots_of. rewrite length_prod. simpl. lia. Qed.

(** A failure before the loop leaves everything as it was. *)
Lemma fit_stops_before_loop E (w : World E) X y learner val_size tp fp idx :
  issubset (cols_standard (self w)) (columns X) = false \/
  (exists e, iloc X (train_idx idx (index_len X) val_size) = inl e) \/
  (exists e, iloc y (train_idx idx (index_len X) val_size) = inl e) \/
  (exists e, iloc X (val_idx idx (index_len X) val_size) = inl e) \/
  (exists e, iloc y (val_idx idx (index_len X) val_size) = inl e) ->
  fst (fit E X y learner val_size tp fp idx w) = w.
Proof.
  intros Hearly.
  destruct Hearly as [Hsub | Hiloc].
  { now rewrite (fit_missing_columns E X y learner val_size tp fp idx w Hsub). }
  set (run := fit E X y learner val_size tp fp idx w).
  destruct (fit_cases_frames E X y learner val_size tp fp idx w (fst run)
              (snd run) (surjective_pairing run))
    as [[Hw _] |
        [Xt [Xts [Xtr [yt [Xv [Xvs [Xvr [yv
          [HXt [_ [_ [Hyt [HXv [_ [_ [Hyv _]]]]]]]]]]]]]]]]]; [exact Hw |].
  exfalso.
  destruct Hiloc as [[e He] | [[e He] | [[e He] | [e He]]]]; congruence.
Qed.

(** X2: [fit] records one training call for each (label, feature set) pair
    it gets through, in the order of its loop: the calls are those of a
    prefix of the pairs, each the call owed to its pair, and those of all
    pairs, two for each label column, when [fit] returns normally; there
    are never more than two for each label column, and there is none when a
    required column is missing or a selection of rows fails, which happens
    before the loop. *)
Theorem fit_trains_two_classifiers_per_label E (w : World E)
    X y learner val_size tp fp idx :
  let run := fit E X y learner val_size tp fp idx w in
  exists done rest new,
    slots_of (columns y) = (done ++ rest)%list /\
    trace (fst run) = (trace w ++ new)%list /\
    Forall2 (fun s ev =>
               call_for (self w) X y learner val_size tp fp idx (fst s) (snd s) ev)
            done new /\
    (snd run = inr tt -> rest = []) /\
    (List.length new <= 2 * List.length (columns y))%nat /\
    (snd run = inr tt -> List.length new = (2 * List.length (columns y))%nat) /\
    (issubset (cols_standard (self w)) (columns X) = false \/
     (exists e, iloc X (train_idx idx (index_len X) val_size) = inl e) \/
     (exists e, iloc y (train_idx idx (index_len X) val_size) = inl e) \/
     (exists e, iloc X (val_idx idx (index_len X) val_size) = inl e) \/
     (exists e, iloc y (val_idx idx (index_len X) val_size) = inl e) ->
     new = []).
Proof.
  intros run.
  destruct (fit_trace E w (fst run) X y learner val_size tp fp idx (snd run)
              (surjective_pairing run))
    as [done [rest [new [Hsl [Htr [Hcalls [Hok _]]]]]]].
  pose proof (Forall2_length Hcalls) as Hlen.
  pose proof (slots_of_length (columns y)) as Hslots.
  rewrite Hsl, length_app in Hslots.
  exists done, rest, new.
  split; [exact Hsl |]. split; [exact Htr |]. split; [exact Hcalls |].
  split; [intros Hr; exact (proj1 (Hok Hr)) |].
  split; [lia |]. split.
  - intros Hr. rewrite (proj1 (Hok Hr)) in Hslots. simpl in Hslots. lia.
  - intros Hearly.
    pose proof (fit_stops_before_loop E w X y learner val_size tp fp idx Hearly)
      as Hw.
    fold run in Hw. rewrite Hw in Htr.
    apply (app_inv_head (trace w)). rewrite app_nil_r. now symmetry.
Qed.

Lemma fit_trains_two_classifiers_per_label_witness :
  let E := Sample.externals [] in
  let run := fit E (Sample.features 4) (Sample.labels 4) "xgboost" (1 # 4)
               None None [2; 0; 3; 1]%nat (Sample.fresh []) in
  snd run = inr tt /\ List.length (trace (fst run)) = 4%nat.
Proof.
  intros E run.
  assert (Hok : snd run = inr tt) by (vm_compute; reflexivity).
  split; [exact Hok |].
  destruct (fit_trains_two_classifiers_per_label E (Sample.fresh [])
              (Sample.features 4) (Sample.labels 4) "xgboost" (1 # 4)
              None None [2; 0; 3; 1]%nat)
    as [done [rest [new [_ [Htr [_ [_ [_ [Heq _]]]]]]]]].
  fold run in Htr, Heq. rewrite Htr. simpl. exact (Heq Hok).
Defined.

(** ** What each classifier is trained on *)

(** X7: when [fit] returns normally, the classifier stored for a label and
    a feature set is the one the chosen backend returned for: the training
    rows of [X] restricted to the columns of that feature set, the training
    rows of that label column, the caller's (or default) tree parameters,
    and fit-time parameters that are the caller's (or the defaults) when
    there is no validation split and otherwise hold
    [early_stopping_rounds = 10] and, as [eval_set], the validation rows of
    [X] restricted to the same columns with the validation rows of the label
    column, every other key being the caller's (or the default). *)
Theorem fit_stores_what_it_trained E (w w' : World E)
    X y learner val_size tp fp idx :
  NoDup (columns y) ->
  fit E X y learner val_size tp fp idx w = (w', inr tt) ->
  forall col mv, In col (columns y) -> In mv versions ->
    exists m l X_train X_cols y_train y_col fp',
      stored (self w') col mv = Some m /\
      learner_of_name learner = Some l /\
      iloc X (train_idx idx (index_len X) val_size) = inr X_train /\
      select X_train (pick mv (cols_standard (self w)) (cols_resultfree (self w)))
      = inr X_cols /\
      iloc y (train_idx idx (index_len X) val_size) = inr y_train /\
      getcol y_train col = inr y_col /\
      classifier_fit E l
        (match tp with Some p => p | None => default_tree_params l end)
        X_cols y_col fp' = inr m /\
      let base :=
        match fp with Some p => p | None => default_fit_params l X_cols end in
      (val_size <= 0 -> fp' = base) /\
      (0 < val_size ->
       exists X_val X_val_cols y_val y_val_col,
         iloc X (val_idx idx (index_len X) val_size) = inr X_val /\
         select X_val (pick mv (cols_standard (self w)) (cols_resultfree (self w)))
         = inr X_val_cols /\
         iloc y (val_idx idx (index_len X) val_size) = inr y_val /\
         getcol y_val col = inr y_val_col /\
         get fp' "early_stopping_rounds" = Some (PInt 10) /\
         get fp' "eval_set" = Some (PEvalSet [(X_val_cols, y_val_col)]) /\
         forall k, k <> "early_stopping_rounds" -> k <> "eval_set" ->
                   get fp' k = get base k).
Proof.
  intros Hnd Hfit col mv Hcol Hmv.
  destruct (fit_provenance E w w' X y learner val_size tp fp idx Hnd Hfit
              col mv Hcol Hmv)
    as [m [Hst [l [Xt [Xc [yt [yc [Xv [Xvc [yv [es
         [Hl [HXt [HXc [Hyt [Hyc [HXv [HXvc [Hyv [Hes Htrain]]]]]]]]]]]]]]]]]]]].
  exists m, l, Xt, Xc, yt, yc, (passed_fit_params l Xc fp es).
  repeat (split; [assumption |]).
  cbv zeta. unfold eval_set_for in Hes. split.
  - intros Hle. apply Qle_bool_iff in Hle. rewrite Hle in Hes.
    simpl in Hes. inversion Hes; subst. reflexivity.
  - intros Hpos. rewrite (Qle_bool_positive val_size Hpos) in Hes.
    simpl in Hes.
    destruct (getcol yv col) as [e | sv] eqn:Hsv; inversion Hes; subst.
    exists Xv, Xvc, yv, sv. repeat (split; [assumption |]).
    unfold passed_fit_params. apply merge_val_params.
Qed.

Lemma fit_stores_what_it_trained_witness :
  let E := Sample.externals [] in
  let w := Sample.fresh [] in
  let run := fit E (Sample.features 4) (Sample.labels 4) "xgboost" (1 # 4)
               None None [2; 0; 3; 1]%nat w in
  NoDup (columns (Sample.labels 4)) /\
  snd run = inr tt /\
  exists m (fp' : dict (pyval (value E))),
    stored (self (fst run)) "concedes" "resultfree" = Some m /\
    get fp' "early_stopping_rounds" = Some (PInt 10) /\
    exists (X_val : DataFrame (value E)) y_val,
      get fp' "eval_set" = Some (PEvalSet [(X_val, y_val)]) /\
      columns X_val = ["time"].
Proof.
  intros E w run.
  assert (Hnd : NoDup (columns (Sample.labels 4))).
  { simpl. constructor.
    - intros [H | []]. discriminate H.
    - constructor; [intros [] | constructor]. }
  assert (Hrun : run = (fst run, inr tt)) by (vm_compute; reflexivity).
  split; [exact Hnd |]. split; [vm_compute; reflexivity |].
  destruct (fit_stores_what_it_trained E w (fst run) (Sample.features 4)
              (Sample.labels 4) "xgboost" (1 # 4) None None [2; 0; 3; 1]%nat
              Hnd Hrun "concedes" "resultfree")
    as [m [l [Xt [Xc [yt [yc [fp' [Hst [_ [_ [_ [_ [_ [_ [_ Hval]]]]]]]]]]]]]]].
  - simpl. auto.
  - simpl. auto.
  - destruct (Hval eq_refl)
      as [Xv [Xvc [yv [yvc [HXv [HXvc [_ [_ [H1 [H2 _]]]]]]]]]].
    exists m, fp'. split; [exact Hst |]. split; [exact H1 |].
    exists Xvc, yvc. split; [exact H2 |].
    vm_compute in HXv. inversion HXv; subst Xv.
    vm_compute in HXvc. inversion HXvc; subst Xvc. reflexivity.
Defined.

(** X8: whatever else the feature matrix holds, the training frame of every
    backend call holds only columns of the standard or of the result-free
    feature set and has exactly as many rows as there are training
    positions; with a validation split, the evaluation frame [fit] hands
    over under [eval_set] holds only columns of the same feature set and has
    exactly as many rows as there are validation positions. *)
Theorem fit_trains_on_feature_columns_only E (w : World E)
    X y learner val_size tp fp idx :
  let run := fit E X y learner val_size tp fp idx w in
  exists new,
    trace (fst run) = (trace w ++ new)%list /\
    Forall (fun ev => exists l tp' X' y' fp' cols,
                ev = FitCall l tp' X' y' fp' /\
                (cols = cols_standard (self w) \/
                 cols = cols_resultfree (self w)) /\
                incl (columns X') cols /\
                index_len X' =
                List.length (train_idx idx (index_len X) val_size) /\
                (0 < val_size ->
                 exists X_val y_val,
                   get fp' "eval_set" = Some (PEvalSet [(X_val, y_val)]) /\
                   incl (columns X_val) cols /\
                   index_len X_val =
                   List.length (val_idx idx (index_len X) val_size)))
           new.
Proof.
  intros run.
  destruct (fit_trace E w (fst run) X y learner val_size tp fp idx (snd run)
              (surjective_pairing run))
    as [done [rest [new [_ [Htr [Hcalls _]]]]]].
  exists new. split; [exact Htr |].
  apply Forall_forall. intros ev Hev.
  destruct (Forall2_in_r _ _ _ _ Hcalls Hev) as [s [_ Hcall]].
  destruct Hcall as [l [Xt [Xc [yt [yc [fp' [_ [HXt [HXc [_ [_ [Hev' Hfp]]]]]]]]]]]].
  cbv zeta in Hfp.
  destruct (select_columns _ _ _ HXc) as [Hcols Hlen].
  pose proof (iloc_len _ _ _ HXt) as HlenT.
  exists l, (match tp with Some p => p | None => default_tree_params l end),
    Xc, yc, fp',
    (pick (snd s) (cols_standard (self w)) (cols_resultfree (self w))).
  split; [exact Hev' |].
  split; [unfold pick; destruct (String.eqb (snd s) "standard"); auto |].
  split; [exact Hcols |]. split; [congruence |].
  intros Hpos. rewrite (Qle_bool_positive val_size Hpos) in Hfp.
  destruct Hfp as [Xv [Xvc [yv [yvc [HXv [HXvc [_ [_ [_ [H2 _]]]]]]]]]].
  destruct (select_columns _ _ _ HXvc) as [Hcolsv Hlenv].
  pose proof (iloc_len _ _ _ HXv) as HlenV.
  exists Xvc, yvc. split; [exact H2 |]. split; [exact Hcolsv | congruence].
Qed.

(** * Properties of inference *)

(** ** Probability estimation on a fitted instance *)

Lemma estimate_as_steps E X (w : World E) :
  _estimate_probabilities E X w =
  (if negb (issubset (cols_standard (self w)) (columns X))
   then raise (ValueError (missing_message E (cols_standard (self w)) X))
   else
     fold_each (keys (__models (self w))) empty_frame (fun Y_hat col =>
       fold_each versions Y_hat (fun Y_hat model_version =>
         predict_step E X (cols_standard (self w)) (cols_resultfree (self w))
           Y_hat col model_version))) w.
Proof. reflexivity. Qed.

Lemma predict_step_ok E X cs cr Y Y' col mv m Xc p (w : World E) :
  stored (self w) col mv = Some m ->
  select X (pick mv cs cr) = inr Xc ->
  predict_proba E m Xc = inr p ->
  setcol Y (col ++ "-" ++ mv) (map snd p) = inr Y' ->
  predict_step E X cs cr Y col mv w =
  (mkWorld (self w) (trace w ++ [PredictCall m Xc]), inr Y').
Proof.
  unfold stored, pick. intros Hst Hsel Hp Hset.
  destruct (get (__models (self w)) col) as [bv |] eqn:Hget; [| discriminate].
  unfold predict_step. cbv zeta. unfold bind at 1, get_self at 1.
  unfold bind at 1. rewrite getitem_run, Hget.
  unfold bind at 1. rewrite getitem_run, Hst.
  rewrite bind_lift, Hsel.
  unfold bind at 1, emit at 1. rewrite bind_lift, Hp, lift_run, Hset.
  reflexivity.
Qed.

Lemma replace_series_append {V} (l : list (Series V)) s :
  ~ In (name s) (map name l) -> replace_series l s = (l ++ [s])%list.
Proof.
  induction l as [| s' l IH]; simpl; auto.
  intros H. destruct (String.eqb (name s) (name s')) eqn:Heq.
  - apply String.eqb_eq in Heq. exfalso. apply H. left. congruence.
  - f_equal. apply IH. tauto.
Qed.

Lemma setcol_append {V} n (l : list (Series V)) c vals :
  l <> [] -> ~ In c (map name l) -> List.length vals = n ->
  setcol (mkFrame n l) c vals = inr (mkFrame n (l ++ [mkSeries c false vals])).
Proof.
  intros Hne Hc Hlen. unfold setcol. simpl.
  destruct l as [| s l']; [congruence |].
  rewrite Hlen, Nat.eqb_refl.
  now rewrite (replace_series_append (s :: l') (mkSeries c false vals)).
Qed.

(** The run of [_estimate_probabilities] and [rate] on four stored classifiers. *)
Lemma estimate_and_rate_on_fitted E (w : World E) X game actions m1 m2 m3 m4 :
  constructed (self w) ->
  stored (self w) "scores" "standard" = Some m1 ->
  stored (self w) "scores" "resultfree" = Some m2 ->
  stored (self w) "concedes" "standard" = Some m3 ->
  stored (self w) "concedes" "resultfree" = Some m4 ->
  incl (cols_standard (self w)) (columns X) ->
  (forall m X', exists p,
      predict_proba E m X' = inr p /\ List.length p = index_len X') ->
  exists Xs Xr p1 p2 p3 p4,
    select X (cols_standard (self w)) = inr Xs /\
    select X (cols_resultfree (self w)) = inr Xr /\
    predict_proba E m1 Xs = inr p1 /\
    predict_proba E m2 Xr = inr p2 /\
    predict_proba E m3 Xs = inr p3 /\
    predict_proba E m4 Xr = inr p4 /\
    let s1 := mkSeries "scores-standard" false (map snd p1) in
    let s2 := mkSeries "scores-resultfree" false (map snd p2) in
    let s3 := mkSeries "concedes-standard" false (map snd p3) in
    let s4 := mkSeries "concedes-resultfree" false (map snd p4) in
    let w' := mkWorld (self w)
                (trace w ++ [PredictCall m1 Xs; PredictCall m2 Xr;
                             PredictCall m3 Xs; PredictCall m4 Xr]) in
    _estimate_probabilities E X w =
    (w', inr (mkFrame (index_len X) [s1; s2; s3; s4])) /\
    rate E game actions (Some X) w =
    (w', inr (formula_value E (add_names E actions) s1 s2 s3 s4)).
Proof.
  intros Hc H1 H2 H3 H4 Hincl Hpred.
  assert (Hfree : incl (cols_resultfree (self w)) (columns X)).
  { intros c Hin. apply Hincl. rewrite (constructed_cols E _ Hc).
    apply in_or_app. now left. }
  destruct (select_ok X _ Hincl) as [Xs HXs].
  destruct (select_ok X _ Hfree) as [Xr HXr].
  destruct (select_columns _ _ _ HXs) as [_ Hls].
  destruct (select_columns _ _ _ HXr) as [_ Hlr].
  destruct (Hpred m1 Xs) as [p1 [Hp1 Hl1]].
  destruct (Hpred m2 Xr) as [p2 [Hp2 Hl2]].
  destruct (Hpred m3 Xs) as [p3 [Hp3 Hl3]].
  destruct (Hpred m4 Xr) as [p4 [Hp4 Hl4]].
  exists Xs, Xr, p1, p2, p3, p4.
  repeat (split; [assumption |]).
  intros s1 s2 s3 s4 w'.
  set (n := index_len X).
  set (cs := cols_standard (self w)). set (cr := cols_resultfree (self w)).
  set (w1 := mkWorld (self w) (trace w ++ [PredictCall m1 Xs])).
  set (w2 := mkWorld (self w1) (trace w1 ++ [PredictCall m2 Xr])).
  set (w3 := mkWorld (self w2) (trace w2 ++ [PredictCall m3 Xs])).
  set (w4 := mkWorld (self w3) (trace w3 ++ [PredictCall m4 Xr])).
  assert (S1 : predict_step E X cs cr empty_frame "scores" "standard" w
               = (w1, inr (mkFrame n [s1]))).
  { apply (predict_step_ok E X cs cr _ _ _ _ m1 Xs p1); auto.
    unfold setcol. simpl. f_equal. f_equal. rewrite length_map. lia. }
  assert (S2 : predict_step E X cs cr (mkFrame n [s1]) "scores" "resultfree" w1
               = (w2, inr (mkFrame n [s1; s2]))).
  { apply (predict_step_ok E X cs cr _ _ _ _ m2 Xr p2); auto.
    apply (setcol_append n [s1]).
    - discriminate.
    - simpl. intros [H | []]. discriminate H.
    - rewrite length_map. lia. }
  assert (S3 : predict_step E X cs cr (mkFrame n [s1; s2]) "concedes" "standard" w2
               = (w3, inr (mkFrame n [s1; s2; s3]))).
  { apply (predict_step_ok E X cs cr _ _ _ _ m3 Xs p3); auto.
    apply (setcol_append n [s1; s2]).
    - discriminate.
    - simpl. intros [H | [H | []]]; discriminate H.
    - rewrite length_map. lia. }
  assert (S4 : predict_step E X cs cr (mkFrame n [s1; s2; s3])
                 "concedes" "resultfree" w3
               = (w4, inr (mkFrame n [s1; s2; s3; s4]))).
  { apply (predict_step_ok E X cs cr _ _ _ _ m4 Xr p4); auto.
    apply (setcol_append n [s1; s2; s3]).
    - discriminate.
    - simpl. intros [H | [H | [H | []]]]; discriminate H.
    - rewrite length_map. lia. }
  assert (Hw : w4 = w').
  { unfold w4, w3, w2, w1, w'. simpl. f_equal.
    rewrite <- !app_assoc. reflexivity. }
  assert (Hest : _estimate_probabilities E X w
                 = (w', inr (mkFrame n [s1; s2; s3; s4]))).
  { rewrite estimate_as_steps. fold cs. fold cr.
    assert (Hsub : issubset cs (columns X) = true) by now apply issubset_incl.
    rewrite Hsub. destruct Hc as [_ Hkeys]. rewrite Hkeys.
    cbv beta iota delta [negb]. simpl fold_each.
    unfold bind. rewrite S1. cbv beta iota. rewrite S2. cbv beta iota.
    unfold ret at 1. rewrite S3. cbv beta iota. rewrite S4. cbv beta iota.
    unfold ret. now rewrite Hw. }
  split; [exact Hest |].
  unfold rate. unfold bind at 1, get_self at 1.
  destruct (__models (self w)) as [| kv d] eqn:Hm.
  { destruct Hc as [_ Hkeys]. rewrite Hm in Hkeys. discriminate. }
  unfold is_empty. cbv iota.
  unfold bind at 1, ret at 1.
  rewrite (bind_inr _ _ _ _ _ _ _ _ Hest).
  unfold getcol. simpl. reflexivity.
Qed.

(** X9: on an instance that holds its four classifiers, with a feature matrix
    that has the required columns and classifiers that answer one probability
    pair per row, [_estimate_probabilities] asks each classifier once, the
    standard ones on the standard columns and the result-free ones on the
    result-free columns, and returns the four columns ["scores-standard"],
    ["scores-resultfree"], ["concedes-standard"], ["concedes-resultfree"] in
    this order; [rate] then returns the value formula applied to these four
    columns in the same order. *)
Theorem rate_on_fitted_instance E (w : World E) X game actions m1 m2 m3 m4 :
  constructed (self w) ->
  stored (self w) "scores" "standard" = Some m1 ->
  stored (self w) "scores" "resultfree" = Some m2 ->
  stored (self w) "concedes" "standard" = Some m3 ->
  stored (self w) "concedes" "resultfree" = Some m4 ->
  incl (cols_standard (self w)) (columns X) ->
  (forall m X', exists p,
      predict_proba E m X' = inr p /\ List.length p = index_len X') ->
  exists Xs Xr p1 p2 p3 p4,
    select X (cols_standard (self w)) = inr Xs /\
    select X (cols_resultfree (self w)) = inr Xr /\
    predict_proba E m1 Xs = inr p1 /\
    predict_proba E m2 Xr = inr p2 /\
    predict_proba E m3 Xs = inr p3 /\
    predict_proba E m4 Xr = inr p4 /\
    let s1 := mkSeries "scores-standard" false (map snd p1) in
    let s2 := mkSeries "scores-resultfree" false (map snd p2) in
    let s3 := mkSeries "concedes-standard" false (map snd p3) in
    let s4 := mkSeries "concedes-resultfree" false (map snd p4) in
    let w' := mkWorld (self w)
                (trace w ++ [PredictCall m1 Xs; PredictCall m2 Xr;
                             PredictCall m3 Xs; PredictCall m4 Xr]) in
    _estimate_probabilities E X w =
    (w', inr (mkFrame (index_len X) [s1; s2; s3; s4])) /\
    rate E game actions (Some X) w =
    (w', inr (formula_value E (add_names E actions) s1 s2 s3 s4)).
Proof. exact (estimate_and_rate_on_fitted E w X game actions m1 m2 m3 m4). Qed.

Lemma rate_on_fitted_instance_witness :
  let E := Sample.externals [] in
  let w := fst (fit E (Sample.features 4) (Sample.labels 4) "xgboost" (1 # 4)
                  None None [2; 0; 3; 1]%nat (Sample.fresh [])) in
  constructed (self w) /\
  stored (self w) "scores" "standard" = Some "scores" /\
  exists ratings,
    snd (rate E tt tt (Some (Sample.features 2)) w) = inr ratings /\
    columns ratings = ["scores-standard"; "scores-resultfree";
                       "concedes-standard"; "concedes-resultfree"].
Proof.
  intros E w.
  assert (Hc : constructed (self w)) by (split; vm_compute; reflexivity).
  assert (H1 : stored (self w) "scores" "standard" = Some "scores")
    by (vm_compute; reflexivity).
  split; [exact Hc |]. split; [exact H1 |].
  destruct (rate_on_fitted_instance E w (Sample.features 2) tt tt
              "scores" "scores" "concedes" "concedes" Hc H1)
    as [Xs [Xr [p1 [p2 [p3 [p4 [_ [_ [_ [_ [_ [_ [_ Hrate]]]]]]]]]]]]].
  - vm_compute. reflexivity.
  - vm_compute. reflexivity.
  - vm_compute. reflexivity.
  - vm_compute. tauto.
  - intros m X'. eexists. split; [reflexivity |]. apply repeat_length.
  - eexists. split; [exact (f_equal snd Hrate) | reflexivity].
Defined.

(** ** What inference never does *)

Section Emits.
Context {E : Externals} (P : Event E -> Prop).

Lemma emits_bind A B (m : M E A) (k : A -> M E B) :
  emits P m -> (forall a, emits P (k a)) -> emits P (bind m k).
Proof.
  intros Hm Hk w. unfold bind. destruct (Hm w) as [new [Htr Hall]].
  destruct (m w) as [w1 [e | a]]; simpl in *.
  - exists new. auto.
  - destruct (Hk a w1) as [new' [Htr' Hall']].
    exists (new ++ new')%list. split.
    + rewrite Htr', Htr. now rewrite app_assoc.
    + apply Forall_app. auto.
Qed.

Lemma emits_silent A (m : M E A) :
  (forall w, trace (fst (m w)) = trace w) -> emits P m.
Proof.
  intros H w. exists []. rewrite app_nil_r. split; [apply H | constructor].
Qed.

Lemma emits_emit ev : P ev -> emits P (emit ev).
Proof.
  intros H w. exists [ev]. split; [reflexivity |]. constructor; auto.
Qed.

Lemma emits_fold_each A S (l : list A) (s : S) body :
  (forall s a, emits P (body s a)) -> emits P (fold_each l s body).
Proof.
  intros Hb. revert s. induction l as [| a l IH]; intros s; simpl.
  - apply emits_silent. reflexivity.
  - apply emits_bind; auto.
Qed.

End Emits.

Ltac emits_step :=
  match goal with
  | |- emits _ (bind _ _) => apply emits_bind; [| intros ?]
  | |- emits _ (emit _) => apply emits_emit
  | |- emits _ (fold_each _ _ _) => apply emits_fold_each; intros ? ?
  | |- emits _ (ret _) => apply emits_silent; reflexivity
  | |- emits _ (raise _) => apply emits_silent; reflexivity
  | |- emits _ get_self => apply emits_silent; reflexivity
  | |- emits _ (lift _) => apply emits_silent; intros ?; now rewrite lift_run
  | |- emits _ (getitem _ _) =>
      apply emits_silent; intros ?; now rewrite getitem_run
  | |- emits _ (if ?b then _ else _) => destruct b
  | |- emits _ (match ?x with _ => _ end) => destruct x
  end.

Lemma emits_estimate E X :
  emits (fun ev : Event E => exists m X', ev = PredictCall m X')
        (_estimate_probabilities E X).
Proof.
  unfold _estimate_probabilities. cbv zeta. repeat emits_step. eauto.
Qed.

Lemma emits_compute_features E (P : Event E -> Prop) game actions :
  emits P (compute_features E game actions).
Proof. unfold compute_features. cbv zeta. repeat emits_step. Qed.

(** X10: [rate], [score] and [_estimate_probabilities] never train: every
    call they make to a boosting library is a [predict_proba]; and
    [compute_features] and [compute_labels] make no such call and change
    nothing at all. *)
Theorem inference_never_trains E (w : World E) game actions gs X y :
  let predicts (ev : Event E) := exists m X', ev = PredictCall m X' in
  (exists new, trace (fst (rate E game actions gs w)) = (trace w ++ new)%list /\
               Forall predicts new) /\
  (exists new, trace (fst (score E X y w)) = (trace w ++ new)%list /\
               Forall predicts new) /\
  (exists new, trace (fst (_estimate_probabilities E X w)) = (trace w ++ new)%list /\
               Forall predicts new) /\
  fst (compute_features E game actions w) = w /\
  fst (compute_labels E game actions w) = w.
Proof.
  intros predicts. split; [| split; [| split; [| split]]].
  - revert w. change (emits predicts (rate E game actions gs)).
    unfold rate. cbv zeta. repeat emits_step;
      try apply emits_compute_features; try apply emits_estimate;
      repeat emits_step.
  - revert w. change (emits predicts (score E X y)).
    unfold score. cbv zeta. repeat emits_step;
      try apply emits_estimate; repeat emits_step.
  - apply emits_estimate.
  - unfold compute_features, bind, get_self. cbv zeta. now rewrite lift_run.
  - unfold compute_labels, bind, get_self. cbv zeta. now rewrite lift_run.
Qed.

(** ** Where exceptions come from *)

Section RaisesOnly.
Context {E : Externals} (P : exn -> Prop).

Lemma raises_only_bind A B (m : M E A) (k : A -> M E B) :
  raises_only P m -> (forall a, raises_only P (k a)) -> raises_only P (bind m k).
Proof.
  intros Hm Hk w e. unfold bind. specialize (Hm w).
  destruct (m w) as [w1 [e' | a]]; simpl in *.
  - intros H. inversion H; subst. now apply Hm.
  - apply Hk.
Qed.

Lemma raises_only_lift A (r : result A) :
  (forall e, r = inl e -> P e) -> raises_only P (@lift E A r).
Proof. intros H w e. rewrite lift_run. simpl. apply H. Qed.

Lemma raises_only_raise A e : P e -> raises_only P (@raise E A e).
Proof. intros H w e' He. inversion He; subst. exact H. Qed.

Lemma raises_only_quiet A (m : M E A) :
  (forall w, exists a, snd (m w) = inr a) -> raises_only P m.
Proof. intros H w e He. destruct (H w) as [a Ha]. congruence. Qed.

Lemma raises_only_getitem A (d : dict A) k :
  P (KeyError k) -> raises_only P (@getitem E A d k).
Proof.
  intros H w e. rewrite getitem_run. simpl.
  destruct (get d k); intros He; inversion He; subst. exact H.
Qed.

Lemma raises_only_fold_each A S (l : list A) (s : S) (body : S -> A -> M E S) :
  (forall s a, raises_only P (body s a)) -> raises_only P (fold_each l s body).
Proof.
  intros Hb. revert s. induction l as [| a l IH]; intros s; simpl.
  - apply raises_only_quiet. intros w. eexists. reflexivity.
  - apply raises_only_bind; auto.
Qed.

End RaisesOnly.

Lemma select_error {V} (X : DataFrame V) cols e :
  select X cols = inl e -> exists c, e = KeyError c.
Proof.
  unfold select. destruct (first_missing cols (columns X));
    intros H; inversion H. eauto.
Qed.

Lemma getcol_error {V} (X : DataFrame V) c e :
  getcol X c = inl e -> e = KeyError c.
Proof.
  unfold getcol. destruct (find _ (series X)); intros H; inversion H. auto.
Qed.

Lemma setcol_error {V} (Y : DataFrame V) c vals e :
  setcol Y c vals = inl e -> exists msg, e = ValueError msg.
Proof.
  unfold setcol. destruct (series Y); [discriminate |].
  destruct (List.length vals =? index_len Y)%nat; intros H; inversion H. eauto.
Qed.

Lemma concat_columns_error {V} (frames : list (DataFrame V)) e :
  concat_columns frames = inl e -> exists msg, e = ValueError msg.
Proof.
  unfold concat_columns. destruct frames; intros H; inversion H. eauto.
Qed.

Lemma raises_only_estimate E X :
  (forall m X', predict_proba E m X' <> inl NotFittedError) ->
  raises_only not_NotFittedError (_estimate_probabilities E X).
Proof.
  intros Hpred. unfold _estimate_probabilities. cbv zeta.
  apply raises_only_bind; [apply raises_only_quiet; intros w; eexists; reflexivity |].
  intros me. destruct (negb (issubset _ (columns X))).
  { apply raises_only_raise. discriminate. }
  apply raises_only_fold_each. intros Y col.
  apply raises_only_fold_each. intros Y' mv.
  apply raises_only_bind; [apply raises_only_quiet; intros w; eexists; reflexivity |].
  intros me'.
  apply raises_only_bind; [apply raises_only_getitem; discriminate |].
  intros bv.
  apply raises_only_bind; [apply raises_only_getitem; discriminate |].
  intros model.
  apply raises_only_bind.
  { apply raises_only_lift. intros e He.
    destruct (select_error _ _ _ He) as [c Hc]. subst. discriminate. }
  intros Xc.
  apply raises_only_bind; [apply raises_only_quiet; intros w; eexists; reflexivity |].
  intros _.
  apply raises_only_bind.
  { apply raises_only_lift. intros e He Hn. subst. exact (Hpred _ _ He). }
  intros p.
  apply raises_only_lift. intros e He.
  destruct (setcol_error _ _ _ _ He) as [msg Hm]. subst. discriminate.
Qed.

Lemma raises_only_compute_features E game actions :
  raises_only not_NotFittedError (compute_features E game actions).
Proof.
  unfold compute_features. cbv zeta.
  apply raises_only_bind; [apply raises_only_quiet; intros w; eexists; reflexivity |].
  intros me. apply raises_only_lift. intros e He.
  destruct (concat_columns_error _ _ He) as [msg Hm]. subst. discriminate.
Qed.

Ltac quiet := apply raises_only_quiet; intros ?; eexists; reflexivity.

(** X11: on any instance made by [__init__], fitted or not, the guard of
    [rate] and [score] never raises [NotFittedError].  Either can end in
    [NotFittedError] only if a collaborator raises it: a classifier's
    [predict_proba], or one of the two metrics. *)
Theorem rate_and_score_never_raise_NotFittedError_themselves
    E (w : World E) game actions gs X y :
  constructed (self w) ->
  (forall m X', predict_proba E m X' <> inl NotFittedError) ->
  (forall a b, brier_score_loss E a b <> inl NotFittedError) ->
  (forall a b, roc_auc_score E a b <> inl NotFittedError) ->
  snd (rate E game actions gs w) <> inl NotFittedError /\
  snd (score E X y w) <> inl NotFittedError.
Proof.
  intros [_ Hkeys] Hpred Hbrier Hroc.
  assert (Hne : is_empty (__models (self w)) = false).
  { destruct (__models (self w)); [discriminate | reflexivity]. }
  assert (Hcol : forall (F : DataFrame (value E)) c,
             forall e, getcol F c = inl e -> not_NotFittedError e).
  { intros F c e He. rewrite (getcol_error _ _ _ He). discriminate. }
  split.
  - unfold rate, bind at 1, get_self at 1. rewrite Hne. cbv zeta.
    match goal with
    | |- snd (?m w) <> _ => assert (Hro : raises_only not_NotFittedError m)
    end.
    { apply raises_only_bind.
      { destruct gs; [quiet | apply raises_only_compute_features]. }
      intros g. apply raises_only_bind; [now apply raises_only_estimate |].
      intros y_hat.
      repeat (apply raises_only_bind;
              [apply raises_only_lift; apply Hcol | intros ?]).
      quiet. }
    intros H. exact (Hro w NotFittedError H eq_refl).
  - unfold score, bind at 1, get_self at 1. rewrite Hne.
    match goal with
    | |- snd (?m w) <> _ => assert (Hro : raises_only not_NotFittedError m)
    end.
    { apply raises_only_bind; [now apply raises_only_estimate |].
      intros y_hat. apply raises_only_bind; [quiet |]. intros me.
      apply raises_only_fold_each. intros scores col. cbv zeta.
      apply raises_only_bind; [apply raises_only_lift; apply Hcol |]. intros a.
      apply raises_only_bind; [apply raises_only_lift; apply Hcol |]. intros b.
      apply raises_only_bind.
      { apply raises_only_lift. intros e He Hn. subst. exact (Hbrier _ _ He). }
      intros brier.
      apply raises_only_bind; [apply raises_only_getitem; discriminate |].
      intros bm.
      apply raises_only_bind; [apply raises_only_lift; apply Hcol |]. intros a'.
      apply raises_only_bind; [apply raises_only_lift; apply Hcol |]. intros b'.
      apply raises_only_bind.
      { apply raises_only_lift. intros e He Hn. subst. exact (Hroc _ _ He). }
      intros auroc.
      apply raises_only_bind; [apply raises_only_getitem; discriminate |].
      intros bm'. quiet. }
    intros H. exact (Hro w NotFittedError H eq_refl).
Qed.

Lemma rate_and_score_never_raise_NotFittedError_themselves_witness :
  let E := Sample.externals [] in
  let w := Sample.fresh [] in
  constructed (self w) /\
  snd (rate E tt tt None w) <> inl NotFittedError /\
  snd (score E (Sample.features 2) (Sample.labels 2) w) <> inl NotFittedError.
Proof.
  intros E w.
  assert (Hc : constructed (self w)) by (split; reflexivity).
  split; [exact Hc |].
  apply (rate_and_score_never_raise_NotFittedError_themselves E w tt tt None
           (Sample.features 2) (Sample.labels 2) Hc).
  - intros m X'. discriminate.
  - intros a b. discriminate.
  - intros a b. discriminate.
Defined.

(** * From training to rating *)

Lemma fit_success_columns E X y learner val_size tp fp idx (w w' : World E) :
  fit E X y learner val_size tp fp idx w = (w', inr tt) ->
  incl (cols_standard (self w)) (columns X).
Proof.
  intros Hfit.
  destruct (issubset (cols_standard (self w)) (columns X)) eqn:Hs.
  - now apply issubset_incl.
  - rewrite (fit_missing_columns E X y learner val_size tp fp idx w Hs) in Hfit.
    discriminate.
Qed.

(** X12: after a [fit] that returned normally on label columns ["scores"]
    and ["concedes"], the column check of [_estimate_probabilities] passes
    on the training features, and with classifiers that answer one
    probability pair per row, [rate] on these features returns a rating: it
    raises nothing. *)
Theorem rate_after_successful_fit E (w w' : World E)
    X y learner val_size tp fp idx game actions :
  constructed (self w) ->
  columns y = ["scores"; "concedes"] ->
  fit E X y learner val_size tp fp idx w = (w', inr tt) ->
  (forall m X', exists p,
      predict_proba E m X' = inr p /\ List.length p = index_len X') ->
  incl (cols_standard (self w')) (columns X) /\
  exists w'' ratings,
    rate E game actions (Some X) w' = (w'', inr ratings) /\ self w'' = self w'.
Proof.
  intros Hc Hcols Hfit Hpred.
  assert (Hw' : w' = fst (fit E X y learner val_size tp fp idx w))
    by now rewrite Hfit.
  assert (Hc' : constructed (self w')).
  { rewrite Hw'. now apply fit_constructed. }
  assert (Hcs : cols_standard (self w') = cols_standard (self w)).
  { pose proof (keeps_config_fit E X y learner val_size tp fp idx w) as Hk.
    rewrite <- Hw' in Hk. unfold config in Hk. inversion Hk as [[H1 H2 H3 H4 H5]].
    unfold cols_standard. now rewrite H2, H5. }
  assert (Hincl : incl (cols_standard (self w')) (columns X)).
  { rewrite Hcs. eapply fit_success_columns; eauto. }
  split; [exact Hincl |].
  assert (Hnd : NoDup (columns y)).
  { rewrite Hcols. constructor.
    - intros [H | []]. discriminate H.
    - constructor; [intros [] | constructor]. }
  assert (Hst : forall col mv, In col (columns y) -> In mv versions ->
                               exists m, stored (self w') col mv = Some m).
  { intros col mv Hcol Hmv.
    destruct (fit_provenance E w w' X y learner val_size tp fp idx Hnd Hfit
                col mv Hcol Hmv) as [m [Hm _]].
    eauto. }
  rewrite Hcols in Hst.
  destruct (Hst "scores" "standard") as [m1 H1]; [simpl; auto | simpl; auto |].
  destruct (Hst "scores" "resultfree") as [m2 H2]; [simpl; auto | simpl; auto |].
  destruct (Hst "concedes" "standard") as [m3 H3]; [simpl; auto | simpl; auto |].
  destruct (Hst "concedes" "resultfree") as [m4 H4]; [simpl; auto | simpl; auto |].
  destruct (estimate_and_rate_on_fitted E w' X game actions m1 m2 m3 m4
              Hc' H1 H2 H3 H4 Hincl Hpred)
    as [Xs [Xr [p1 [p2 [p3 [p4 [_ [_ [_ [_ [_ [_ [_ Hrate]]]]]]]]]]]]].
  do 2 eexists. split; [exact Hrate | reflexivity].
Qed.

Lemma rate_after_successful_fit_witness :
  let E := Sample.externals [] in
  let w := Sample.fresh [] in
  let run := fit E (Sample.features 4) (Sample.labels 4) "catboost" (1 # 4)
               None None [2; 0; 3; 1]%nat w in
  constructed (self w) /\
  snd run = inr tt /\
  exists w'' ratings,
    rate E tt tt (Some (Sample.features 4)) (fst run) = (w'', inr ratings).
Proof.
  intros E w run.
  assert (Hc : constructed (self w)) by (split; reflexivity).
  assert (Hrun : run = (fst run, inr tt)) by (vm_compute; reflexivity).
  split; [exact Hc |]. split; [vm_compute; reflexivity |].
  destruct (rate_after_successful_fit E w (fst run) (Sample.features 4)
              (Sample.labels 4) "catboost" (1 # 4) None None [2; 0; 3; 1]%nat
              tt tt Hc eq_refl Hrun)
    as [_ [w'' [ratings [Hrate _]]]].
  - intros m X'. eexists. split; [reflexivity |]. apply repeat_length.
  - exists w'', ratings. exact Hrate.
Defined.

(** ** Features computed by the instance itself *)

Lemma names_flat_map {V} (l : list (DataFrame V)) :
  map name (flat_map series l) = flat_map columns l.
Proof.
  induction l as [| g l IH]; simpl; auto.
  rewrite map_app. now rewrite IH.
Qed.

Lemma flat_map_agree {A B} (f g : A -> list B) (l : list A) :
  (forall a, In a l -> f a = g a) -> flat_map f l = flat_map g l.
Proof.
  induction l as [| a l IH]; simpl; auto.
  intros H. rewrite (H a) by now left. f_equal. apply IH.
  intros a' Ha'. apply H. now right.
Qed.

Lemma columns_concat {V} (frames : list (DataFrame V)) X :
  concat_columns frames = inr X -> columns X = flat_map columns frames.
Proof.
  unfold concat_columns. destruct frames as [| f frames]; [discriminate |].
  intros H; inversion H; subst.
  exact (names_flat_map (f :: frames)).
Qed.

(** X13: when every feature transformer yields the columns that
    [feature_column_names] announces for it, [compute_features] returns a
    frame whose columns are exactly the standard feature columns, so that
    [fit] and [_estimate_probabilities] accept it; it makes no backend call
    and leaves the instance unchanged. *)
Theorem computed_features_have_the_required_columns E (w : World E)
    game actions :
  xfns_standard (self w) <> [] ->
  (forall fn gs, In fn (xfns_standard (self w)) ->
                 columns (transform E fn gs)
                 = transform_columns E fn (nb_prev_actions (self w))) ->
  exists X,
    compute_features E game actions w = (w, inr X) /\
    columns X = cols_standard (self w) /\
    issubset (cols_standard (self w)) (columns X) = true.
Proof.
  intros Hne Hcols.
  unfold compute_features, bind, get_self. cbv zeta. rewrite lift_run.
  set (gs := fs_play_left_to_right E _ _).
  destruct (concat_columns (map (fun fn => transform E fn gs)
                              (xfns_standard (self w)))) as [e | X] eqn:Hcat.
  { unfold concat_columns in Hcat.
    destruct (xfns_standard (self w)); [congruence | discriminate]. }
  assert (HX : columns X = cols_standard (self w)).
  { rewrite (columns_concat _ _ Hcat).
    unfold cols_standard, feature_column_names.
    rewrite flat_map_concat_map, map_map, <- flat_map_concat_map.
    apply flat_map_agree. intros fn Hfn. now apply Hcols. }
  exists X. split; [reflexivity |]. split; [exact HX |].
  apply issubset_incl. rewrite HX. apply incl_refl.
Qed.

Lemma computed_features_have_the_required_columns_witness :
  let E := Sample.externals [] in
  let w := Sample.fresh [] in
  xfns_standard (self w) <> [] /\
  exists X,
    compute_features E tt tt w = (w, inr X) /\
    columns X = ["time"; "result_onehot"].
Proof.
  intros E w.
  assert (Hne : xfns_standard (self w) <> []) by discriminate.
  split; [exact Hne |].
  destruct (computed_features_have_the_required_columns E w tt tt Hne)
    as [X [Hrun [Hcols _]]].
  - intros fn gs _. reflexivity.
  - exists X. split; [exact Hrun | exact Hcols].
Defined.

(** ** Default fit-time parameters of catboost *)

Lemma nonzero_from_In k flags i :
  In i (nonzero_from k flags) <->
  exists j, i = (k + j)%nat /\ nth_error flags j = Some true.
Proof.
  revert k. induction flags as [| b flags IH]; intros k; simpl.
  - split; [tauto |]. intros [j [_ H]]. destruct j; discriminate.
  - assert (Hrest : In i (nonzero_from (S k) flags) <->
                    exists j, i = (k + S j)%nat /\ nth_error flags j = Some true).
    { rewrite IH. split; intros [j [Hi Hj]]; exists j; split; auto; lia. }
    destruct b; simpl.
    + rewrite Hrest. split.
      * intros [Hk | [j [Hi Hj]]].
        -- exists 0%nat. split; [lia | reflexivity].
        -- exists (S j). auto.
      * intros [[| j] [Hi Hj]].
        -- left. lia.
        -- right. exists j. auto.
    + rewrite Hrest. split.
      * intros [j [Hi Hj]]. exists (S j). auto.
      * intros [[| j] [Hi Hj]]; [discriminate |]. exists j. auto.
Qed.

Lemma passed_fit_params_untouched_key E l (X : DataFrame (value E)) fp es k :
  k <> "early_stopping_rounds" -> k <> "eval_set" ->
  get (passed_fit_params l X fp es) k =
  get (match fp with Some p => p | None => default_fit_params l X end) k.
Proof.
  intros H1 H2. unfold passed_fit_params. destruct es as [es |]; auto.
  now apply merge_val_params.
Qed.

(** X14: with learner ["catboost"] and no [fit_params], every training call
    is told, under ["cat_features"], exactly the positions of the columns of
    its training frame whose dtype is category, and gets [verbose = True];
    this holds with or without a validation split. *)
Theorem catboost_default_cat_features E (w : World E) X y val_size tp idx :
  let run := fit E X y "catboost" val_size tp None idx w in
  exists new,
    trace (fst run) = (trace w ++ new)%list /\
    Forall (fun ev => exists tp' X' y' fp' positions,
                ev = FitCall CatBoost tp' X' y' fp' /\
                get fp' "cat_features" = Some (PIntList positions) /\
                get fp' "verbose" = Some (PBool true) /\
                forall i, In i positions <->
                          exists s, nth_error (series X') i = Some s /\
                                    category s = true)
           new.
Proof.
  intros run.
  destruct (fit_cases E X y "catboost" val_size tp None idx w (fst run) (snd run)
              (surjective_pairing run))
    as [[Hw _] | [Xts [Xtr [Xvs [Xvr [yt [yv [_ [_ Hloop]]]]]]]]].
  - rewrite Hw. exists []. rewrite app_nil_r. split; [reflexivity | constructor].
  - apply loop_calls in Hloop. destruct Hloop as [new [Htr Hall]].
    exists new. split; [exact Htr |].
    eapply Forall_impl; [| exact Hall].
    intros ev [s [_ [l [yc [es [Hl [_ Hev]]]]]]].
    inversion Hl; subst l.
    set (X' := pick (snd s) Xts Xtr) in *.
    exists (passed_tree_params CatBoost tp), X', yc,
      (passed_fit_params CatBoost X' None es),
      (nonzero (map category (series X'))).
    split; [exact Hev |].
    split; [rewrite passed_fit_params_untouched_key by discriminate; reflexivity |].
    split; [rewrite passed_fit_params_untouched_key by discriminate; reflexivity |].
    intros i. unfold nonzero. rewrite nonzero_from_In. split.
    + intros [j [Hi Hj]]. simpl in Hi. subst j.
      rewrite nth_error_map in Hj.
      destruct (nth_error (series X') i) as [sr |]; [| discriminate].
      exists sr. split; [reflexivity |]. simpl in Hj. congruence.
    + intros [sr [Hn Hcat]]. exists i. split; [reflexivity |].
      rewrite nth_error_map, Hn. simpl. now rewrite Hcat.
Qed.

(** * The class invariant *)

(** X15: the model mapping of an instance has exactly the keys ["scores"]
    and ["concedes"], in this order, and [xfns_standard] is [xfns_resultfree]
    followed by [xfns_result]: [__init__] sets this up, and [fit] keeps it
    whatever it is given and whether it returns or fails (it never adds or
    removes a label). *)
Theorem instance_invariant_is_kept E xfns xfns_result nb (w : World E)
    X y learner val_size tp fp idx :
  constructed (__init__ E xfns xfns_result nb) /\
  (constructed (self w) ->
   constructed (self (fst (fit E X y learner val_size tp fp idx w)))).
Proof.
  split; [apply init_constructed | apply fit_constructed].
Qed.

Lemma instance_invariant_is_kept_witness :
  let E := Sample.externals ["concedes"] in
  let w := Sample.fresh ["concedes"] in
  let run := fit E (Sample.features 4) (Sample.frame 4 ["scores"; "goal"])
               "xgboost" (1 # 4) None None [2; 0; 3; 1]%nat w in
  constructed (self w) /\
  snd run = inl (KeyError "goal") /\
  keys (__models (self (fst run))) = ["scores"; "concedes"].
Proof.
  intros E w run.
  assert (Hc : constructed (self w)) by (split; reflexivity).
  split; [exact Hc |]. split; [vm_compute; reflexivity |].
  exact (proj2 (proj2 (instance_invariant_is_kept E None None 3 w
                         (Sample.features 4) (Sample.frame 4 ["scores"; "goal"])
                         "xgboost" (1 # 4) None None [2; 0; 3; 1]%nat) Hc)).
Defined.
